(** * projector_utils: grouping and ungrouping of tensor axes

    A shallow embedding of [src/projector_utils/merge.py] ([group] and
    [ungroup]) together with the part of NumPy's [ndarray.reshape] that both
    functions call, and of the validation and reshaping pipeline of
    [decomp.tsvd].

    An [ndarray] is its shape and the sequence of its elements in C order
    (row-major, last axis fastest).  Python integers are [Z]; exceptions are
    values of [exn] returned through the [result] type.  Axis sizes and
    indices are unbounded integers: the overflow checks NumPy makes on
    [npy_intp] are outside the model.  So is NumPy's limit on the number of
    axes, [NPY_MAXDIMS].  Both can only be met by [ungroup], whose [split]
    comes from the caller; the statements that promise an array from
    [ungroup] for every [split] of some kind therefore ask for positive
    entries (each is then at most the size of the axis split) and for at
    most [NPY_MAXDIMS] axes in the result. *)

From Stdlib Require Import ZArith Lia.
From stdpp Require Import base numbers list.

Local Open Scope Z_scope.

(** * Definitions *)

(** ** Exceptions *)

(** The text carried by a [ValueError].  Every failure of [merge.py] is a
    [ValueError]; the message tells the kinds apart. *)
Inductive message : Type :=
  | msg_group_range
      (* merge.py:52  "begin and end must satisfy 0 <= begin < end <=
         arr.ndim after normalization." *)
  | msg_ungroup_target
      (* merge.py:90  "target must be between 0 and arr.ndim - 1 after
         normalization." *)
  | msg_ungroup_prod (nl : Z) (split : list Z)
      (* merge.py:95  f"Cannot ungroup: {nl} -> {split}." *)
  | msg_reshape_unknown
      (* numpy  "can only specify one unknown dimension" *)
  | msg_reshape_size (size : Z) (newshape : list Z)
      (* numpy  "cannot reshape array of size {size} into shape {newshape}" *)
  | msg_tsvd_nu.
      (* test_decomp.py:13  "... between 1 and arr.ndim - 1 ..." *)

Inductive exn : Type :=
  | ValueError (m : message)
  | TypeError
      (* numpy  "reshape() takes exactly 1 argument (0 given)" *)
  | LinAlgError.

(** The error kinds of the specification, as the exceptions that carry them. *)
Definition InvalidAxisRange : exn := ValueError msg_group_range.
Definition InvalidAxisIndex : exn := ValueError msg_ungroup_target.
Definition ShapeMismatch (nl : Z) (split : list Z) : exn :=
  ValueError (msg_ungroup_prod nl split).
Definition InvalidSplitPoint : exn := ValueError msg_tsvd_nu.
Definition NumericalFailure : exn := LinAlgError.

(** A call either returns a value or raises. *)
Inductive result (T : Type) : Type :=
  | Ok (v : T)
  | Raise (e : exn).
Arguments Ok {T} v.
Arguments Raise {T} e.

Definition bind {T U : Type} (r : result T) (k : T -> result U) : result U :=
  match r with
  | Ok v => k v
  | Raise e => Raise e
  end.

Notation "x <- r ;;; k" := (bind r (fun x => k))
  (at level 100, r at next level, right associativity, only parsing).

(** ** Python sequences *)

(** [math.prod]: the product of the entries, 1 for the empty sequence. *)
Definition prod (l : list Z) : Z := foldr Z.mul 1 l.

(** A slice bound as CPython adjusts it: a negative bound counts from the
    end, and the outcome is clamped to [0, len]. *)
Definition adjust_bound (len i : Z) : nat :=
  Z.to_nat (if i <? 0 then Z.max 0 (i + len) else Z.min i len).

(** [l[:i]] *)
Definition slice_to {T} (l : list T) (i : Z) : list T :=
  take (adjust_bound (Z.of_nat (length l)) i) l.

(** [l[i:]] *)
Definition slice_from {T} (l : list T) (i : Z) : list T :=
  drop (adjust_bound (Z.of_nat (length l)) i) l.

(** [l[i:j]] *)
Definition slice {T} (l : list T) (i j : Z) : list T :=
  let len := Z.of_nat (length l) in
  take (adjust_bound len j - adjust_bound len i)%nat (drop (adjust_bound len i) l).

(** ** Arrays *)

Record ndarray (A : Type) : Type := mk_ndarray {
  shape : list Z;   (* arr.shape *)
  flat : list A     (* the elements in C order *)
}.
Arguments mk_ndarray {A} shape flat.
Arguments shape {A} _.
Arguments flat {A} _.

Definition ndim {A} (arr : ndarray A) : Z := Z.of_nat (length (shape arr)).

(** [arr.size]: the product of the axis sizes. *)
Definition size {A} (arr : ndarray A) : Z := prod (shape arr).

(** [arr.shape[i]] for an index already known to be in range. *)
Definition axis_size {A} (arr : ndarray A) (i : Z) : Z :=
  shape arr !!! Z.to_nat i.

(** What NumPy guarantees of every array it hands out: no axis size is
    negative and the number of elements is the product of the axis sizes. *)
Definition wf_ndarray {A} (arr : ndarray A) : Prop :=
  Forall (fun d => 0 <= d) (shape arr) /\
  Z.of_nat (length (flat arr)) = size arr.

(** *** [ndarray.reshape]

    NumPy's [_fix_unknown_dimension]: one pass over the requested
    dimensions multiplies the known ones and remembers the position of the
    negative one; a second negative one is an error.  The unknown dimension
    is then the quotient, which must exist and be exact. *)
Fixpoint scan_dims (dims : list Z) (i : nat) (i_unknown : option nat)
    (s_known : Z) : result (option nat * Z) :=
  match dims with
  | [] => Ok (i_unknown, s_known)
  | d :: rest =>
      if d <? 0 then
        match i_unknown with
        | None => scan_dims rest (S i) (Some i) s_known
        | Some _ => Raise (ValueError msg_reshape_unknown)
        end
      else scan_dims rest (S i) i_unknown (s_known * d)
  end.

Definition fix_unknown_dimension (newshape : list Z) (s_original : Z)
    : result (list Z) :=
  p <- scan_dims newshape 0 None 1 ;;;
  match fst p with
  | Some i =>
      let s_known := snd p in
      if (s_known =? 0) || negb (Z.rem s_original s_known =? 0) then
        Raise (ValueError (msg_reshape_size s_original newshape))
      else Ok (<[i := Z.quot s_original s_known]> newshape)
  | None =>
      if negb (s_original =? snd p) then
        Raise (ValueError (msg_reshape_size s_original newshape))
      else Ok newshape
  end.

(** Reshaping in C order keeps the sequence of elements and replaces the
    shape. *)
Definition reshape {A} (arr : ndarray A) (newshape : list Z)
    : result (ndarray A) :=
  dims <- fix_unknown_dimension newshape (size arr) ;;;
  Ok (mk_ndarray dims (flat arr)).

(** [arr.reshape] called with the sizes as separate arguments:
    without any argument the method raises a TypeError; otherwise the
    arguments are the requested shape.  ([group] always passes [-1], so its
    call has an argument and goes to [reshape] at once.) *)
Definition reshape_call {A} (arr : ndarray A) (args : list Z)
    : result (ndarray A) :=
  match args with
  | [] => Raise TypeError
  | _ :: _ => reshape arr args
  end.

(** The largest number of axes of an array, 64 since NumPy 2.0 (32 before).
    Not enforced by [reshape] above; see the head of the file. *)
Definition NPY_MAXDIMS : Z := 64.

(** ** merge.py *)

(** [if idx < 0: idx += arr.ndim] *)
Definition normalize (n idx : Z) : Z :=
  if idx <? 0 then idx + n else idx.

(** [0 <= begin < end <= arr.ndim], the chained comparison of merge.py:51. *)
Definition axis_range (n b e : Z) : Prop := 0 <= b /\ b < e /\ e <= n.

(** [0 <= target < arr.ndim], the chained comparison of merge.py:89. *)
Definition axis_index (n t : Z) : Prop := 0 <= t /\ t < n.

#[global] Instance axis_range_dec n b e : Decision (axis_range n b e).
Proof. unfold axis_range. apply _. Defined.

#[global] Instance axis_index_dec n t : Decision (axis_index n t).
Proof. unfold axis_index. apply _. Defined.

Definition group {A} (arr : ndarray A) (begin end_ : Z) : result (ndarray A) :=
  let begin := normalize (ndim arr) begin in
  let end_ := normalize (ndim arr) end_ in
  if negb ((0 <=? begin) && (begin <? end_) && (end_ <=? ndim arr)) then
    Raise (ValueError msg_group_range)
  else
    reshape arr (slice_to (shape arr) begin ++ [-1] ++ slice_from (shape arr) end_).

Definition ungroup {A} (arr : ndarray A) (target : Z) (split : list Z)
    : result (ndarray A) :=
  let target := normalize (ndim arr) target in
  if negb ((0 <=? target) && (target <? ndim arr)) then
    Raise (ValueError msg_ungroup_target)
  else
    let nl := axis_size arr target in
    if negb (nl =? prod split) then
      Raise (ValueError (msg_ungroup_prod nl split))
    else
      reshape_call arr
        (slice_to (shape arr) target ++ split ++ slice_from (shape arr) (target + 1)).

(** ** decomp.py *)

Section TensorSVD.
Context {A : Type}.

(** The dense matrix SVD that [tsvd] delegates to: from a 2-D array to
    the factors [(U_mat, S, V_mat)], or [None] when it does not converge. *)
Variable svd : ndarray A -> option (ndarray A * list A * ndarray A).

(** Modelled from the spec: [decomp.tsvd] is not among the sources (only
    its tests are).  Section 4.3: the call fails with InvalidSplitPoint
    unless [1 <= nu <= d - 1]; the array is then made a matrix with
    AxisGroup applied twice, decomposed, and the two factor matrices are
    given back the row and column axis shapes with AxisUngroup on their
    leading axis. *)
Definition tsvd (arr : ndarray A) (nu : Z)
    : result (ndarray A * list A * ndarray A) :=
  let d := ndim arr in
  if negb ((1 <=? nu) && (nu <=? d - 1)) then
    Raise (ValueError msg_tsvd_nu)
  else
    cols <- group arr nu d ;;;
    m <- group cols 0 nu ;;;
    match svd m with
    | None => Raise LinAlgError
    | Some (u_mat, s, v_mat) =>
        u <- ungroup u_mat 0 (slice_to (shape arr) nu) ;;;
        v <- ungroup v_mat 0 (slice_from (shape arr) nu) ;;;
        Ok (u, s, v)
    end.

End TensorSVD.

(** ** Element order *)

(** Position in C order of the element at multi-index [idx] of an array of
    shape [sh], by Horner's scheme; [acc] is the position reached so far. *)
Fixpoint ravel (sh idx : list Z) (acc : Z) : Z :=
  match sh, idx with
  | d :: sh', i :: idx' => ravel sh' idx' (acc * d + i)
  | _, _ => acc
  end.

(** [arr[idx]] for a full multi-index without negative entries. *)
Definition item {A} (arr : ndarray A) (idx : list Z) : option A :=
  flat arr !! Z.to_nat (ravel (shape arr) idx 0).

(** ** Arrays used as concrete inputs *)

(** [np.arange(24).reshape(2, 3, 4)] *)
Definition arange_2_3_4 : ndarray Z := mk_ndarray [2; 3; 4] (seqZ 0 24).
(** [np.arange(24).reshape(2, 12)] *)
Definition arange_2_12 : ndarray Z := mk_ndarray [2; 12] (seqZ 0 24).
(** [np.arange(4)] *)
Definition arange_4 : ndarray Z := mk_ndarray [4] (seqZ 0 4).
(** [np.array([7])] *)
Definition single_7 : ndarray Z := mk_ndarray [1] [7].
(** [np.zeros((0, 3))] *)
Definition zeros_0_3 : ndarray Z := mk_ndarray [0; 3] [].
(** [np.zeros((3, 0))] *)
Definition zeros_3_0 : ndarray Z := mk_ndarray [3; 0] [].

(** [np.arange(24)] *)
Definition arange_24 : ndarray Z := mk_ndarray [24] (seqZ 0 24).
(** [np.arange(24).reshape(6, 4)] *)
Definition arange_6_4 : ndarray Z := mk_ndarray [6; 4] (seqZ 0 24).

(** [np.arange(3).reshape(1, 3)] *)
Definition arange_1_3 : ndarray Z := mk_ndarray [1; 3] (seqZ 0 3).

(** [np.eye(3)] *)
Definition eye_3 : ndarray Z := mk_ndarray [3; 3] [1; 0; 0; 0; 1; 0; 0; 0; 1].


(** * Lemmas *)

(** ** Products and slices *)

Lemma prod_nil : prod [] = 1.
Proof. reflexivity. Qed.

Lemma prod_cons d l : prod (d :: l) = d * prod l.
Proof. reflexivity. Qed.

Lemma prod_app l1 l2 : prod (l1 ++ l2) = prod l1 * prod l2.
Proof.
  induction l1 as [|d l1 IH]; cbn [app].
  - rewrite prod_nil. lia.
  - rewrite !prod_cons, IH. lia.
Qed.

Lemma prod_nonneg l : Forall (fun d => 0 <= d) l -> 0 <= prod l.
Proof.
  induction 1 as [|d l Hd _ IH].
  - rewrite prod_nil. lia.
  - rewrite prod_cons. lia.
Qed.

Lemma slice_to_in_range {T} (l : list T) (i : Z) :
  0 <= i <= Z.of_nat (length l) -> slice_to l i = take (Z.to_nat i) l.
Proof.
  intros Hi. unfold slice_to, adjust_bound.
  destruct (Z.ltb_spec i 0); [lia|]. f_equal. lia.
Qed.

Lemma slice_from_in_range {T} (l : list T) (i : Z) :
  0 <= i <= Z.of_nat (length l) -> slice_from l i = drop (Z.to_nat i) l.
Proof.
  intros Hi. unfold slice_from, adjust_bound.
  destruct (Z.ltb_spec i 0); [lia|]. f_equal. lia.
Qed.

Lemma slice_in_range {T} (l : list T) (i j : Z) :
  0 <= i <= j -> j <= Z.of_nat (length l) ->
  slice l i j = take (Z.to_nat j - Z.to_nat i)%nat (drop (Z.to_nat i) l).
Proof.
  intros Hi Hj. unfold slice, adjust_bound.
  destruct (Z.ltb_spec i 0); [lia|]. destruct (Z.ltb_spec j 0); [lia|].
  f_equal; [|f_equal]; lia.
Qed.

(** A list is its first [i] entries, then the entries from [i] to [j], then
    the rest. *)
Lemma take_slice_drop {T} (l : list T) (i j : nat) :
  (i <= j)%nat -> take i l ++ take (j - i) (drop i l) ++ drop j l = l.
Proof.
  intros Hij.
  transitivity (take i l ++ drop i l); [|apply take_drop]. f_equal.
  replace (drop j l) with (drop (j - i) (drop i l)); [apply take_drop|].
  rewrite drop_drop. f_equal. lia.
Qed.

(** ** What [reshape] does *)

Lemma scan_dims_nonneg dims i u s :
  Forall (fun d => 0 <= d) dims ->
  scan_dims dims i u s = Ok (u, s * prod dims).
Proof.
  intros H. revert i s.
  induction H as [|d dims Hd _ IH]; intros i s; cbn [scan_dims].
  - rewrite prod_nil. do 2 f_equal. lia.
  - destruct (Z.ltb_spec d 0); [lia|].
    rewrite IH, prod_cons. do 2 f_equal. lia.
Qed.

Lemma scan_dims_app pre rest i u s :
  Forall (fun d => 0 <= d) pre ->
  scan_dims (pre ++ rest) i u s =
  scan_dims rest (i + length pre) u (s * prod pre).
Proof.
  intros H. revert i s.
  induction H as [|d pre Hd _ IH]; intros i s; cbn [scan_dims app length].
  - rewrite prod_nil. f_equal; lia.
  - destruct (Z.ltb_spec d 0); [lia|].
    rewrite IH, prod_cons. f_equal; lia.
Qed.

(** Once the unknown dimension has been seen, the rest of the pass succeeds
    exactly when no other dimension is negative. *)
Lemma scan_dims_seen dims i j s :
  scan_dims dims i (Some j) s =
  if forallb (fun d => 0 <=? d) dims then Ok (Some j, s * prod dims)
  else Raise (ValueError msg_reshape_unknown).
Proof.
  revert i s. induction dims as [|d dims IH]; intros i s; cbn [scan_dims forallb].
  - rewrite prod_nil. do 2 f_equal. lia.
  - destruct (Z.ltb_spec d 0), (Z.leb_spec 0 d); try lia; cbn [andb]; [done|].
    rewrite IH, prod_cons. destruct (forallb _ dims); [|done].
    do 2 f_equal. lia.
Qed.

(** No dimension negative: the sizes must agree. *)
Lemma fix_unknown_dimension_known dims s :
  Forall (fun d => 0 <= d) dims ->
  fix_unknown_dimension dims s =
  if s =? prod dims then Ok dims
  else Raise (ValueError (msg_reshape_size s dims)).
Proof.
  intros H. unfold fix_unknown_dimension.
  rewrite scan_dims_nonneg by done. cbn [bind fst snd].
  rewrite Z.mul_1_l. by destruct (s =? prod dims).
Qed.

(** One dimension negative, in the place of [d]. *)
Lemma fix_unknown_dimension_hole pre post d s :
  Forall (fun d => 0 <= d) pre -> Forall (fun d => 0 <= d) post -> d < 0 ->
  fix_unknown_dimension (pre ++ [d] ++ post) s =
  let s_known := prod pre * prod post in
  if (s_known =? 0) || negb (Z.rem s s_known =? 0) then
    Raise (ValueError (msg_reshape_size s (pre ++ [d] ++ post)))
  else Ok (pre ++ [Z.quot s s_known] ++ post).
Proof.
  intros Hpre Hpost Hd. unfold fix_unknown_dimension.
  rewrite scan_dims_app by done. cbn [app scan_dims].
  destruct (Z.ltb_spec d 0); [|lia].
  rewrite scan_dims_nonneg by done. cbn [bind fst snd].
  rewrite Z.mul_1_l.
  destruct (_ || _); [done|]. f_equal.
  rewrite insert_app_r_alt by (cbn; lia).
  by replace (0 + length pre - length pre)%nat with 0%nat by lia.
Qed.

(** [reshape] raises nothing but its own two messages. *)
Lemma fix_unknown_dimension_raises dims s e :
  fix_unknown_dimension dims s = Raise e ->
  e = ValueError msg_reshape_unknown \/ e = ValueError (msg_reshape_size s dims).
Proof.
  unfold fix_unknown_dimension.
  assert (Hscan : forall l i u k e',
    scan_dims l i u k = Raise e' -> e' = ValueError msg_reshape_unknown).
  { induction l as [|x l IH]; intros i u k e'; cbn [scan_dims]; [done|].
    destruct (x <? 0); [destruct u|]; eauto. congruence. }
  destruct (scan_dims dims 0 None 1) as [[[j|] k]|e'] eqn:E; cbn [bind fst snd].
  - destruct (_ || _); [|done]. intros [= <-]. by right.
  - destruct (negb _); [|done]. intros [= <-]. by right.
  - intros [= <-]. left. by eapply Hscan.
Qed.

Lemma reshape_raises {A} (arr : ndarray A) dims e :
  reshape arr dims = Raise e ->
  e = ValueError msg_reshape_unknown \/
  e = ValueError (msg_reshape_size (size arr) dims).
Proof.
  unfold reshape.
  destruct (fix_unknown_dimension dims (size arr)) eqn:E; cbn [bind]; [done|].
  intros [= <-]. by eapply fix_unknown_dimension_raises.
Qed.

(** A call with at least one argument is [reshape]. *)
Lemma reshape_call_nonempty {A} (arr : ndarray A) (args : list Z) :
  args <> [] -> reshape_call arr args = reshape arr args.
Proof. by destruct args. Qed.

Lemma reshape_call_empty {A} (arr : ndarray A) :
  reshape_call arr [] = Raise TypeError.
Proof. reflexivity. Qed.

(** The call raises the TypeError or one of the two messages of
    [reshape]. *)
Lemma reshape_call_raises {A} (arr : ndarray A) args e :
  reshape_call arr args = Raise e ->
  (e = TypeError /\ args = []) \/
  e = ValueError msg_reshape_unknown \/
  e = ValueError (msg_reshape_size (size arr) args).
Proof.
  destruct args as [|d args]; cbn [reshape_call].
  - intros [= <-]. by left.
  - intros H. right. by apply reshape_raises.
Qed.

(** ** Slices of a shape written as [pre ++ mid ++ post] *)

Lemma slice_to_app {T} (pre rest : list T) :
  slice_to (pre ++ rest) (Z.of_nat (length pre)) = pre.
Proof.
  rewrite slice_to_in_range by (rewrite length_app; lia).
  rewrite Nat2Z.id. apply take_app_length.
Qed.

Lemma slice_from_app {T} (pre rest : list T) :
  slice_from (pre ++ rest) (Z.of_nat (length pre)) = rest.
Proof.
  rewrite slice_from_in_range by (rewrite length_app; lia).
  rewrite Nat2Z.id. apply drop_app_length.
Qed.

Lemma slice_app {T} (pre mid post : list T) :
  slice (pre ++ mid ++ post) (Z.of_nat (length pre))
    (Z.of_nat (length pre) + Z.of_nat (length mid)) = mid.
Proof.
  rewrite slice_in_range by (rewrite ?length_app; lia).
  rewrite Nat2Z.id, drop_app_length.
  replace (_ - _)%nat with (length mid) by lia.
  apply take_app_length.
Qed.

(** Every shape splits at an in-range pair of bounds. *)
Lemma shape_split3 {T} (l : list T) (b e : Z) :
  0 <= b <= e -> e <= Z.of_nat (length l) ->
  l = slice_to l b ++ slice l b e ++ slice_from l e /\
  Z.of_nat (length (slice_to l b)) = b /\
  Z.of_nat (length (slice l b e)) = e - b.
Proof.
  intros Hb He.
  rewrite slice_to_in_range, slice_in_range, slice_from_in_range by lia.
  split; [|split].
  - symmetry. apply take_slice_drop. lia.
  - rewrite length_take. lia.
  - rewrite length_take, length_drop. lia.
Qed.

Lemma Forall_nonneg_app3 (pre mid post : list Z) :
  Forall (fun d => 0 <= d) (pre ++ mid ++ post) ->
  Forall (fun d => 0 <= d) pre /\ Forall (fun d => 0 <= d) mid /\
  Forall (fun d => 0 <= d) post.
Proof. rewrite !Forall_app. tauto. Qed.

(** ** [group] and [ungroup] on a shape [pre ++ mid ++ post] *)

Section Merge.
Context {A : Type}.
Implicit Types (arr : ndarray A) (pre mid post split : list Z).

(** [group] over the axes of [mid]: the outcome is decided by the product
    of the axis sizes it leaves alone. *)
Lemma group_app pre mid post (data : list A) (b e : Z) :
  Forall (fun d => 0 <= d) (pre ++ mid ++ post) ->
  mid <> [] ->
  normalize (ndim (mk_ndarray (pre ++ mid ++ post) data)) b
    = Z.of_nat (length pre) ->
  normalize (ndim (mk_ndarray (pre ++ mid ++ post) data)) e
    = Z.of_nat (length pre) + Z.of_nat (length mid) ->
  group (mk_ndarray (pre ++ mid ++ post) data) b e =
  if prod pre * prod post =? 0 then
    Raise (ValueError (msg_reshape_size (prod (pre ++ mid ++ post))
                         (pre ++ [-1] ++ post)))
  else Ok (mk_ndarray (pre ++ [prod mid] ++ post) data).
Proof.
  intros Hnn Hmid Hb He.
  destruct (Forall_nonneg_app3 _ _ _ Hnn) as (Hpre & _ & Hpost).
  unfold group. rewrite Hb, He.
  assert (0 < Z.of_nat (length mid)) by (destruct mid; [done|cbn; lia]).
  unfold ndim; cbn [shape]. rewrite !length_app.
  destruct (Z.leb_spec 0 (Z.of_nat (length pre))); [|lia].
  destruct (Z.ltb_spec (Z.of_nat (length pre))
              (Z.of_nat (length pre) + Z.of_nat (length mid))); [|lia].
  destruct (Z.leb_spec (Z.of_nat (length pre) + Z.of_nat (length mid))
              (Z.of_nat (length pre + (length mid + length post)))); [|lia].
  cbn [andb negb].
  rewrite slice_to_app.
  replace (Z.of_nat (length pre) + Z.of_nat (length mid))
    with (Z.of_nat (length (pre ++ mid))) by (rewrite length_app; lia).
  rewrite (app_assoc pre mid post), slice_from_app.
  unfold reshape, size; cbn [shape flat].
  rewrite fix_unknown_dimension_hole by (done || lia). cbn zeta.
  rewrite !prod_app.
  destruct (Z.eqb_spec (prod pre * prod post) 0) as [|Hne]; [done|].
  replace (prod pre * prod mid * prod post)
    with (prod mid * (prod pre * prod post)) by lia.
  rewrite Z.rem_mul, Z.quot_mul by done. done.
Qed.

(** [ungroup] of the axis after [pre] into [split].  The call that would
    leave no axis at all is the one [reshape] refuses. *)
Lemma ungroup_app pre x post split (data : list A) (t : Z) :
  Forall (fun d => 0 <= d) (pre ++ [x] ++ post) ->
  Forall (fun d => 0 <= d) split ->
  normalize (ndim (mk_ndarray (pre ++ [x] ++ post) data)) t
    = Z.of_nat (length pre) ->
  ungroup (mk_ndarray (pre ++ [x] ++ post) data) t split =
  if x =? prod split then
    match pre ++ split ++ post with
    | [] => Raise TypeError
    | _ :: _ => Ok (mk_ndarray (pre ++ split ++ post) data)
    end
  else Raise (ValueError (msg_ungroup_prod x split)).
Proof.
  intros Hnn Hsplit Ht.
  destruct (Forall_nonneg_app3 _ _ _ Hnn) as (Hpre & _ & Hpost).
  unfold ungroup. rewrite Ht.
  unfold ndim, axis_size; cbn [shape]. rewrite !length_app. cbn [length].
  destruct (Z.leb_spec 0 (Z.of_nat (length pre))); [|lia].
  destruct (Z.ltb_spec (Z.of_nat (length pre))
              (Z.of_nat (length pre + (1 + length post)))); [|lia].
  cbn [andb negb].
  change ([x] ++ post) with (x :: post).
  rewrite Nat2Z.id, list_lookup_total_middle by done.
  destruct (Z.eqb_spec x (prod split)) as [->|]; [|done]. cbn [negb].
  rewrite slice_to_app.
  replace (Z.of_nat (length pre) + 1)
    with (Z.of_nat (length (pre ++ [prod split])))
    by (rewrite length_app; cbn; lia).
  change (prod split :: post) with ([prod split] ++ post).
  rewrite (app_assoc pre [_] post), slice_from_app.
  destruct (pre ++ split ++ post) as [|d dims] eqn:Hargs; [done|].
  cbn [reshape_call]. rewrite <- Hargs. clear d dims Hargs.
  unfold reshape, size; cbn [shape flat].
  rewrite fix_unknown_dimension_known
    by (rewrite !Forall_app; done).
  rewrite !prod_app, prod_cons, prod_nil.
  destruct (Z.eqb_spec (prod pre * (prod split * 1) * prod post)
              (prod pre * (prod split * prod post))); [done|lia].
Qed.

(** The same when an axis is left. *)
Lemma ungroup_app_nonempty pre x post split (data : list A) (t : Z) :
  Forall (fun d => 0 <= d) (pre ++ [x] ++ post) ->
  Forall (fun d => 0 <= d) split ->
  normalize (ndim (mk_ndarray (pre ++ [x] ++ post) data)) t
    = Z.of_nat (length pre) ->
  pre ++ split ++ post <> [] ->
  ungroup (mk_ndarray (pre ++ [x] ++ post) data) t split =
  if x =? prod split then Ok (mk_ndarray (pre ++ split ++ post) data)
  else Raise (ValueError (msg_ungroup_prod x split)).
Proof.
  intros Hnn Hsplit Ht Hne. rewrite ungroup_app by done.
  by destruct (pre ++ split ++ post).
Qed.
End Merge.

Lemma normalize_nonneg (n i : Z) : 0 <= i -> normalize n i = i.
Proof. intros Hi. unfold normalize. destruct (Z.ltb_spec i 0); [lia|done]. Qed.

Lemma normalize_negative (n i : Z) : i < 0 -> normalize n i = i + n.
Proof. intros Hi. unfold normalize. destruct (Z.ltb_spec i 0); [done|lia]. Qed.

(** A shape splits around an in-range axis. *)
Lemma shape_split_axis (l : list Z) (t : Z) :
  0 <= t < Z.of_nat (length l) ->
  l = slice_to l t ++ [l !!! Z.to_nat t] ++ slice_from l (t + 1) /\
  Z.of_nat (length (slice_to l t)) = t.
Proof.
  intros Ht.
  rewrite slice_to_in_range, slice_from_in_range by lia.
  split.
  - replace (Z.to_nat (t + 1)) with (S (Z.to_nat t)) by lia.
    symmetry. apply take_drop_middle. apply list_lookup_lookup_total_lt. lia.
  - rewrite length_take. lia.
Qed.

Section RoundTrips.
Context {A : Type}.
Implicit Types (pre mid post split : list Z) (data : list A).

(** Merging the axes of [mid] and splitting the merged axis again. *)
Lemma ungroup_group_app pre mid post data (b e : Z) :
  Forall (fun d => 0 <= d) (pre ++ mid ++ post) ->
  mid <> [] ->
  prod pre * prod post <> 0 ->
  normalize (ndim (mk_ndarray (pre ++ mid ++ post) data)) b
    = Z.of_nat (length pre) ->
  normalize (ndim (mk_ndarray (pre ++ mid ++ post) data)) e
    = Z.of_nat (length pre) + Z.of_nat (length mid) ->
  (g <- group (mk_ndarray (pre ++ mid ++ post) data) b e ;;;
   ungroup g (Z.of_nat (length pre)) mid)
  = Ok (mk_ndarray (pre ++ mid ++ post) data).
Proof.
  intros Hnn Hmid Hout Hb He.
  rewrite group_app by done.
  destruct (Z.eqb_spec (prod pre * prod post) 0); [done|]. cbn [bind].
  destruct (Forall_nonneg_app3 _ _ _ Hnn) as (Hpre & Hm & Hpost).
  rewrite ungroup_app_nonempty.
  - by rewrite Z.eqb_refl.
  - rewrite !Forall_app. split_and!; [done| |done].
    constructor; [by apply prod_nonneg|done].
  - done.
  - apply normalize_nonneg. lia.
  - intros (_ & [Hm' _]%app_eq_nil)%app_eq_nil. done.
Qed.

(** Splitting the axis after [pre] and merging the new axes again. *)
Lemma group_ungroup_app pre post split data (t : Z) :
  Forall (fun d => 0 <= d) (pre ++ [prod split] ++ post) ->
  Forall (fun d => 0 <= d) split ->
  split <> [] ->
  prod pre * prod post <> 0 ->
  normalize (ndim (mk_ndarray (pre ++ [prod split] ++ post) data)) t
    = Z.of_nat (length pre) ->
  (u <- ungroup (mk_ndarray (pre ++ [prod split] ++ post) data) t split ;;;
   group u (Z.of_nat (length pre))
     (Z.of_nat (length pre) + Z.of_nat (length split)))
  = Ok (mk_ndarray (pre ++ [prod split] ++ post) data).
Proof.
  intros Hnn Hsplit Hne Hout Ht.
  rewrite ungroup_app_nonempty;
    [|done..|by intros (_ & [Hs' _]%app_eq_nil)%app_eq_nil].
  rewrite Z.eqb_refl. cbn [bind].
  destruct (Forall_nonneg_app3 _ _ _ Hnn) as (Hpre & _ & Hpost).
  rewrite group_app.
  - by destruct (Z.eqb_spec (prod pre * prod post) 0).
  - rewrite !Forall_app. done.
  - done.
  - apply normalize_nonneg. lia.
  - apply normalize_nonneg. lia.
Qed.
End RoundTrips.

(** The range check of [group], as a proposition. *)
Lemma group_check_spec (n b e : Z) :
  negb ((0 <=? b) && (b <? e) && (e <=? n)) = true <-> ~ axis_range n b e.
Proof.
  unfold axis_range.
  destruct (Z.leb_spec 0 b), (Z.ltb_spec b e), (Z.leb_spec e n);
    cbn; split; (lia || done).
Qed.

Lemma ungroup_check_spec (n t : Z) :
  negb ((0 <=? t) && (t <? n)) = true <-> ~ axis_index n t.
Proof.
  unfold axis_index.
  destruct (Z.leb_spec 0 t), (Z.ltb_spec t n); cbn; split; (lia || done).
Qed.

(** ** [group] and [ungroup] on any array *)

Section OnArrays.
Context {A : Type}.
Implicit Types (T : ndarray A).

(** A call of [group] that passes the range check returns the merged
    array unless an axis it leaves alone has size zero; then [reshape]
    cannot infer the [-1] and raises. *)
Lemma group_in_range T (b e : Z) :
  Forall (fun d => 0 <= d) (shape T) ->
  axis_range (ndim T) (normalize (ndim T) b) (normalize (ndim T) e) ->
  group T b e =
  if prod (slice_to (shape T) (normalize (ndim T) b))
     * prod (slice_from (shape T) (normalize (ndim T) e)) =? 0
  then
    Raise (ValueError (msg_reshape_size (size T)
             (slice_to (shape T) (normalize (ndim T) b) ++ [-1]
              ++ slice_from (shape T) (normalize (ndim T) e))))
  else
    Ok (mk_ndarray
          (slice_to (shape T) (normalize (ndim T) b)
           ++ [prod (slice (shape T) (normalize (ndim T) b)
                      (normalize (ndim T) e))]
           ++ slice_from (shape T) (normalize (ndim T) e))
          (flat T)).
Proof.
  destruct T as [sh data]. unfold size. cbn [shape flat].
  intros Hnn (H0 & Hlt & Hle).
  remember (normalize (ndim (mk_ndarray sh data)) b) as nb eqn:Hnb.
  remember (normalize (ndim (mk_ndarray sh data)) e) as ne eqn:Hne.
  destruct (shape_split3 sh nb ne) as (Hsh & Hl1 & Hl2);
    [lia | unfold ndim in Hle; cbn [shape] in Hle; lia |].
  remember (slice_to sh nb) as pre.
  remember (slice sh nb ne) as mid.
  remember (slice_from sh ne) as post.
  pose proof (group_app pre mid post data b e) as G.
  rewrite <- Hsh in G. apply G.
  - done.
  - intros ->. cbn in Hl2. lia.
  - lia.
  - lia.
Qed.

(** The shape [ungroup] asks for has one axis less than the array, and the
    axes of [split] more. *)
Lemma ungroup_args_length (sh split : list Z) (nt : Z) :
  0 <= nt < Z.of_nat (length sh) ->
  Z.of_nat (length (slice_to sh nt ++ split ++ slice_from sh (nt + 1)))
  = Z.of_nat (length sh) - 1 + Z.of_nat (length split).
Proof.
  intros Hnt.
  rewrite slice_to_in_range, slice_from_in_range by lia.
  rewrite !length_app, length_take, length_drop. lia.
Qed.

(** A call of [ungroup] whose target is in range and whose [split] has no
    negative entry: the product is checked, and then the array is returned
    unless no axis would be left. *)
Lemma ungroup_in_range T (t : Z) (split : list Z) :
  Forall (fun d => 0 <= d) (shape T) ->
  Forall (fun d => 0 <= d) split ->
  axis_index (ndim T) (normalize (ndim T) t) ->
  ungroup T t split =
  if axis_size T (normalize (ndim T) t) =? prod split then
    match slice_to (shape T) (normalize (ndim T) t) ++ split
          ++ slice_from (shape T) (normalize (ndim T) t + 1) with
    | [] => Raise TypeError
    | _ :: _ =>
        Ok (mk_ndarray
              (slice_to (shape T) (normalize (ndim T) t) ++ split
               ++ slice_from (shape T) (normalize (ndim T) t + 1))
              (flat T))
    end
  else
    Raise (ValueError
             (msg_ungroup_prod (axis_size T (normalize (ndim T) t)) split)).
Proof.
  destruct T as [sh data]. unfold axis_size. cbn [shape flat].
  intros Hnn Hsplit (H0 & Hlt).
  remember (normalize (ndim (mk_ndarray sh data)) t) as nt eqn:Hnt.
  destruct (shape_split_axis sh nt) as (Hsh & Hl1);
    [unfold ndim in Hlt; cbn [shape] in Hlt; lia|].
  remember (slice_to sh nt) as pre.
  remember (sh !!! Z.to_nat nt) as x.
  remember (slice_from sh (nt + 1)) as post.
  pose proof (ungroup_app pre x post split data t) as U.
  rewrite <- Hsh in U. apply U; [done|done|lia].
Qed.

(** The same when an axis is left: the array has two axes or more, or
    [split] is not empty. *)
Lemma ungroup_in_range_nonempty T (t : Z) (split : list Z) :
  Forall (fun d => 0 <= d) (shape T) ->
  Forall (fun d => 0 <= d) split ->
  axis_index (ndim T) (normalize (ndim T) t) ->
  1 <= ndim T - 1 + Z.of_nat (length split) ->
  ungroup T t split =
  if axis_size T (normalize (ndim T) t) =? prod split then
    Ok (mk_ndarray
          (slice_to (shape T) (normalize (ndim T) t) ++ split
           ++ slice_from (shape T) (normalize (ndim T) t + 1))
          (flat T))
  else
    Raise (ValueError
             (msg_ungroup_prod (axis_size T (normalize (ndim T) t)) split)).
Proof.
  intros Hnn Hsplit Hin Hlen. rewrite ungroup_in_range by done.
  destruct Hin as [H0 Hlt]. unfold ndim in *.
  remember (normalize (Z.of_nat (length (shape T))) t) as nt eqn:Hnt.
  pose proof (ungroup_args_length (shape T) split nt) as Hl.
  destruct (slice_to (shape T) nt ++ split ++ slice_from (shape T) (nt + 1));
    [cbn [length] in Hl; lia|done].
Qed.

(** [ungroup] raises the target error, the product error, the TypeError
    of the call without arguments, a [reshape] error, or nothing. *)
Lemma ungroup_raises T (t : Z) (split : list Z) (x : exn) :
  ungroup T t split = Raise x ->
  (x = InvalidAxisIndex /\ ~ axis_index (ndim T) (normalize (ndim T) t)) \/
  (x = ShapeMismatch (axis_size T (normalize (ndim T) t)) split /\
   axis_index (ndim T) (normalize (ndim T) t) /\
   prod split <> axis_size T (normalize (ndim T) t)) \/
  (axis_index (ndim T) (normalize (ndim T) t) /\
   prod split = axis_size T (normalize (ndim T) t) /\
   (x = TypeError \/
    exists m, x = ValueError m /\
      (m = msg_reshape_unknown \/ exists s d, m = msg_reshape_size s d))).
Proof.
  unfold ungroup.
  pose proof (ungroup_check_spec (ndim T) (normalize (ndim T) t)) as [Hc1 Hc2].
  destruct (negb _) eqn:E.
  { intros [= <-]. left. split; [done|]. by apply Hc1. }
  assert (Hin : axis_index (ndim T) (normalize (ndim T) t)).
  { destruct (decide (axis_index (ndim T) (normalize (ndim T) t)))
      as [|Hn]; [done|]. by specialize (Hc2 Hn). }
  destruct (Z.eqb_spec (axis_size T (normalize (ndim T) t)) (prod split))
    as [Heq|Hneq]; cbn [negb].
  - intros H. right. right. split_and!; [done|done|].
    apply reshape_call_raises in H as [[-> _] | [-> | ->]]; eauto 7.
  - intros [= <-]. right. left. split_and!; [done|done|congruence].
Qed.
End OnArrays.

(** ** The concrete inputs are well formed *)

Ltac concrete_wf := split; [repeat constructor; lia | reflexivity].

Lemma wf_arange_24 : wf_ndarray arange_24.
Proof. concrete_wf. Qed.

Lemma wf_arange_6_4 : wf_ndarray arange_6_4.
Proof. concrete_wf. Qed.

Lemma wf_arange_1_3 : wf_ndarray arange_1_3.
Proof. concrete_wf. Qed.

Lemma wf_arange_2_12 : wf_ndarray arange_2_12.
Proof. concrete_wf. Qed.

Lemma wf_arange_2_3_4 : wf_ndarray arange_2_3_4.
Proof. concrete_wf. Qed.

Lemma wf_arange_4 : wf_ndarray arange_4.
Proof. concrete_wf. Qed.

Lemma wf_single_7 : wf_ndarray single_7.
Proof. concrete_wf. Qed.

Lemma wf_zeros_0_3 : wf_ndarray zeros_0_3.
Proof. concrete_wf. Qed.

Lemma wf_zeros_3_0 : wf_ndarray zeros_3_0.
Proof. concrete_wf. Qed.

(** The scenario of the specification: [group] of a [(2, 3, 4)] array over
    [1, 3) has shape [(2, 12)], and [ungroup] with [(3, 4)] restores it. *)
Example group_2_3_4 : group arange_2_3_4 1 3 = Ok arange_2_12.
Proof. reflexivity. Qed.

Example ungroup_2_12 : ungroup arange_2_12 1 [3; 4] = Ok arange_2_3_4.
Proof. reflexivity. Qed.

(** An axis of size zero inside the merged range is merged like any other. *)
Example group_zero_inside :
  group zeros_3_0 1 2 = Ok zeros_3_0 /\
  group zeros_3_0 0 2 = Ok (mk_ndarray [0] []).
Proof. split; reflexivity. Qed.

(** ** Validation of [group] *)

(** [group] raises the range error, a [reshape] error, or nothing. *)
Lemma group_raises {A} (T : ndarray A) (b e : Z) (x : exn) :
  group T b e = Raise x ->
  (x = InvalidAxisRange /\
   ~ axis_range (ndim T) (normalize (ndim T) b) (normalize (ndim T) e)) \/
  (axis_range (ndim T) (normalize (ndim T) b) (normalize (ndim T) e) /\
   exists m, x = ValueError m /\
     (m = msg_reshape_unknown \/ exists s d, m = msg_reshape_size s d)).
Proof.
  unfold group.
  destruct (negb _) eqn:E.
  - intros [= <-]. left. split; [done|]. by apply group_check_spec.
  - intros H. right. split.
    + destruct (group_check_spec (ndim T) (normalize (ndim T) b)
                  (normalize (ndim T) e)) as [_ Hc].
      destruct (decide (axis_range (ndim T) (normalize (ndim T) b)
                          (normalize (ndim T) e))) as [|Hn]; [done|].
      rewrite (Hc Hn) in E. done.
    + apply reshape_raises in H as [-> | ->]; eauto 6.
Qed.

Lemma group_range_check_fails {A} (T : ndarray A) (b e : Z) :
  ~ axis_range (ndim T) (normalize (ndim T) b) (normalize (ndim T) e) ->
  group T b e = Raise InvalidAxisRange.
Proof.
  intros Hn. unfold group.
  destruct (group_check_spec (ndim T) (normalize (ndim T) b)
              (normalize (ndim T) e)) as [_ Hc].
  by rewrite (Hc Hn).
Qed.

(** C4: [group(T, b, e)] fails with the InvalidAxisRange error exactly when,
    after a negative [b] and a negative [e] have had [ndim(T)] added,
    [0 <= b < e <= ndim(T)] does not hold; in particular it fails when
    [b >= e], [b < 0] or [e > ndim(T)] after normalization, and a failing
    call returns no tensor. *)
Theorem group_range_validation {A} (T : ndarray A) (b e : Z) :
  (group T b e = Raise InvalidAxisRange <->
   ~ axis_range (ndim T) (normalize (ndim T) b) (normalize (ndim T) e)) /\
  (normalize (ndim T) b >= normalize (ndim T) e \/
   normalize (ndim T) b < 0 \/
   normalize (ndim T) e > ndim T ->
   group T b e = Raise InvalidAxisRange) /\
  (forall x, group T b e = Raise x -> forall G, group T b e <> Ok G).
Proof.
  pose proof (group_range_check_fails T b e) as Hback.
  split; [split|split].
  - intros H. apply group_raises in H as [[_ Hn] | (_ & m & [= <-] & Hm)].
    + done.
    + destruct Hm as [|(? & ? & ?)]; done.
  - done.
  - intros Hor. apply Hback. unfold axis_range. lia.
  - intros x Hx G HG. congruence.
Qed.

Lemma group_range_validation_witness :
  group arange_2_3_4 2 (-2) = Raise InvalidAxisRange.
Proof.
  apply (proj1 (proj2 (group_range_validation arange_2_3_4 2 (-2)))).
  left. vm_compute. discriminate.
Defined.

(** ** A negative entry in [split] *)

Lemma first_negative (l : list Z) :
  Exists (fun d => d < 0) l ->
  exists s1 d s2,
    l = s1 ++ d :: s2 /\ Forall (fun d => 0 <= d) s1 /\ d < 0.
Proof.
  induction l as [|x l IH]; intros H.
  - by apply Exists_nil in H.
  - destruct (Z.lt_ge_cases x 0) as [Hx|Hx].
    + exists [], x, l. by split_and!.
    + apply Exists_cons in H as [H|H]; [lia|].
      destruct (IH H) as (s1 & d & s2 & -> & Hs1 & Hd).
      exists (x :: s1), d, s2. split_and!; [done| |done].
      by constructor.
Qed.

Lemma forallb_nonneg (l : list Z) :
  forallb (fun d => 0 <=? d) l = true -> Forall (fun d => 0 <= d) l.
Proof.
  induction l as [|x l IH]; cbn [forallb]; [by constructor|].
  intros [Hx Hl]%andb_true_iff. constructor; [lia|by apply IH].
Qed.

(** When [split] has a negative entry and a non-negative product, the
    requested shape is refused: either a second dimension is negative, or
    the known dimensions multiply to zero. *)
Lemma fix_unknown_dimension_negative_split pre split post s :
  Forall (fun d => 0 <= d) pre ->
  Exists (fun d => d < 0) split ->
  0 <= prod split ->
  fix_unknown_dimension (pre ++ split ++ post) s
    = Raise (ValueError msg_reshape_unknown) \/
  fix_unknown_dimension (pre ++ split ++ post) s
    = Raise (ValueError (msg_reshape_size s (pre ++ split ++ post))).
Proof.
  intros Hpre Hex Hprod.
  destruct (first_negative split Hex) as (s1 & d & s2 & -> & Hs1 & Hd).
  unfold fix_unknown_dimension.
  rewrite scan_dims_app by done.
  rewrite <- (app_assoc s1 (d :: s2) post), scan_dims_app by done.
  cbn [app scan_dims]. destruct (Z.ltb_spec d 0); [|lia].
  rewrite scan_dims_seen.
  destruct (forallb _ (s2 ++ post)) eqn:Hall; cbn [bind fst snd]; [|by left].
  right.
  apply forallb_nonneg, Forall_app in Hall as [Hs2 Hpost].
  rewrite prod_app, prod_cons in Hprod.
  pose proof (prod_nonneg _ Hs1). pose proof (prod_nonneg _ Hs2).
  assert (prod s1 * prod s2 = 0) as Hz by nia.
  rewrite prod_app.
  replace (1 * prod pre * prod s1 * (prod s2 * prod post))
    with (prod pre * (prod s1 * prod s2) * prod post) by lia.
  rewrite Hz, Z.mul_0_r, Z.mul_0_l. done.
Qed.

(** ** Claims about [ungroup] *)




(** A [split] with two negative entries passes the product check of
    [ungroup(np.arange(4), 0, (-2, -2))], and [reshape(-2, -2)] then has
    two unknown dimensions. *)
Lemma ungroup_negative_split_raises :
  wf_ndarray arange_4 /\
  axis_index (ndim arange_4) (normalize (ndim arange_4) 0) /\
  prod [-2; -2] = axis_size arange_4 (normalize (ndim arange_4) 0) /\
  ungroup arange_4 0 [-2; -2] = Raise (ValueError msg_reshape_unknown).
Proof.
  split_and!; [apply wf_arange_4 | split; vm_compute; congruence | done | done].
Qed.

(** C9: on the one-axis array [np.array([7])], whose axis has size 1,
    [ungroup(T, 0, ())] returns no tensor: the call at merge.py:97 is
    [arr.reshape()] without an argument, which raises a TypeError, where
    the array without axes was to be returned. *)
Theorem ungroup_empty_split_one_axis :
  wf_ndarray single_7 /\
  axis_index (ndim single_7) (normalize (ndim single_7) 0) /\
  axis_size single_7 (normalize (ndim single_7) 0) = 1 /\
  delete (Z.to_nat (normalize (ndim single_7) 0)) (shape single_7) = [] /\
  ungroup single_7 0 [] = Raise TypeError.
Proof.
  split_and!;
    [apply wf_single_7 | split; vm_compute; congruence | done | done | done].
Qed.

(** X18: the empty split on any array, for an in-range target.  When the
    target axis has another size than 1, [ungroup(T, t, ())] fails with
    ShapeMismatch.  When it has size 1 and [T] has two axes or more, the
    call returns the elements of [T] under the shape of [T] with axis [t]
    removed.  When it has size 1 and is the only axis, the call raises the
    TypeError. *)
Theorem ungroup_empty_split_cases {A} (T : ndarray A) (t : Z) :
  wf_ndarray T ->
  axis_index (ndim T) (normalize (ndim T) t) ->
  (axis_size T (normalize (ndim T) t) <> 1 ->
   ungroup T t [] =
   Raise (ShapeMismatch (axis_size T (normalize (ndim T) t)) [])) /\
  (axis_size T (normalize (ndim T) t) = 1 -> 2 <= ndim T ->
   ungroup T t [] =
   Ok (mk_ndarray (delete (Z.to_nat (normalize (ndim T) t)) (shape T))
         (flat T))) /\
  (axis_size T (normalize (ndim T) t) = 1 -> ndim T = 1 ->
   ungroup T t [] = Raise TypeError).
Proof.
  intros [Hnn _] Hin.
  assert (Hdel : slice_to (shape T) (normalize (ndim T) t) ++ []
                 ++ slice_from (shape T) (normalize (ndim T) t + 1)
                 = delete (Z.to_nat (normalize (ndim T) t)) (shape T)).
  { destruct Hin as [H0 Hlt]. unfold ndim in *.
    remember (normalize (Z.of_nat (length (shape T))) t) as nt.
    rewrite slice_to_in_range, slice_from_in_range by lia.
    rewrite delete_take_drop. cbn [app]. do 2 f_equal. lia. }
  split_and!.
  - intros H1. rewrite ungroup_in_range by done. rewrite prod_nil.
    by destruct (Z.eqb_spec (axis_size T (normalize (ndim T) t)) 1).
  - intros H1 Hn.
    rewrite ungroup_in_range_nonempty by (done || (cbn [length]; lia)).
    by rewrite prod_nil, Hdel, H1.
  - intros H1 Hn. rewrite ungroup_in_range by done.
    rewrite prod_nil, H1, Hdel. cbn [Z.eqb Pos.eqb].
    destruct Hin as [H0 Hlt]. unfold ndim in *.
    remember (normalize (Z.of_nat (length (shape T))) t) as nt.
    destruct (delete (Z.to_nat nt) (shape T)) as [|d l] eqn:E; [done|].
    apply (f_equal length) in E. rewrite length_delete in E.
    + cbn [length] in E. lia.
    + apply lookup_lt_is_Some. lia.
Qed.

Lemma ungroup_empty_split_cases_witness :
  ungroup arange_1_3 (-2) [] = Ok (mk_ndarray [3] (seqZ 0 3)).
Proof.
  destruct (ungroup_empty_split_cases arange_1_3 (-2) wf_arange_1_3)
    as (_ & H & _).
  - split; vm_compute; congruence.
  - apply H; [reflexivity | vm_compute; congruence].
Defined.

(** [ungroup] decides on the shape alone: an array of the same shape, with
    whatever elements, meets the same failure. *)
Lemma ungroup_raise_shape_only {A B} (T : ndarray A) (T' : ndarray B)
    (t : Z) (split : list Z) (x : exn) :
  shape T' = shape T ->
  ungroup T t split = Raise x -> ungroup T' t split = Raise x.
Proof.
  intros Hsh. unfold ungroup, reshape_call, reshape, ndim, axis_size, size.
  rewrite Hsh.
  destruct (negb (_ && _)); [by intros [= <-]|].
  destruct (negb (_ =? _)); [by intros [= <-]|].
  destruct (_ ++ _ ++ _); [by intros [= <-]|].
  destruct (fix_unknown_dimension _ _); cbn [bind]; [done|by intros [= <-]].
Qed.

(** C10: [ungroup] checks the target before it looks at [split]: an
    out-of-range target raises InvalidAxisIndex whatever [split] holds;
    every failure is decided by the shape alone, without the elements; and
    a failing call returns no tensor. *)
Theorem ungroup_validation_order {A} (T : ndarray A) (t : Z) (split : list Z) :
  (~ axis_index (ndim T) (normalize (ndim T) t) ->
   forall split', ungroup T t split' = Raise InvalidAxisIndex) /\
  (forall (B : Type) (T' : ndarray B) (x : exn),
     shape T' = shape T ->
     ungroup T t split = Raise x -> ungroup T' t split = Raise x) /\
  (forall x, ungroup T t split = Raise x ->
   forall U, ungroup T t split <> Ok U).
Proof.
  split_and!.
  - intros Hn split'. unfold ungroup.
    destruct (ungroup_check_spec (ndim T) (normalize (ndim T) t)) as [_ Hc].
    by rewrite (Hc Hn).
  - intros B T' x. apply ungroup_raise_shape_only.
  - intros x Hx U HU. congruence.
Qed.

Lemma ungroup_validation_order_witness :
  ungroup arange_4 1 [5; -1; -1] = Raise InvalidAxisIndex.
Proof.
  apply (proj1 (ungroup_validation_order arange_4 1 [])).
  intros [_ H]. vm_compute in H. discriminate.
Defined.

(** ** Negative indices *)

(** C7: a negative index has [ndim] added once, before the bounds are
    checked, in [group] (for [begin] and for [end]) and in [ungroup] (for
    [target]): for [-ndim(T) <= i < 0] a call with [i] is the call with
    [i + ndim(T)], and an index below [-ndim(T)] stays negative and is
    rejected. *)
Theorem negative_index_normalization {A} (T : ndarray A) (i : Z) :
  (- ndim T <= i < 0 ->
   (forall e, group T i e = group T (i + ndim T) e) /\
   (forall b, group T b i = group T b (i + ndim T)) /\
   (forall split, ungroup T i split = ungroup T (i + ndim T) split)) /\
  (i < - ndim T ->
   (forall e, group T i e = Raise InvalidAxisRange) /\
   (forall b, group T b i = Raise InvalidAxisRange) /\
   (forall split, ungroup T i split = Raise InvalidAxisIndex)).
Proof.
  split.
  - intros Hi.
    assert (Hn : normalize (ndim T) i = normalize (ndim T) (i + ndim T)).
    { rewrite normalize_negative, normalize_nonneg by lia. done. }
    unfold group, ungroup. rewrite Hn. done.
  - intros Hi.
    assert (0 <= ndim T) by (unfold ndim; lia).
    assert (Hn : normalize (ndim T) i < 0)
      by (rewrite normalize_negative; lia).
    split_and!.
    + intros e. apply group_range_check_fails. unfold axis_range. lia.
    + intros b. apply group_range_check_fails. unfold axis_range. lia.
    + intros split. unfold ungroup.
      destruct (ungroup_check_spec (ndim T) (normalize (ndim T) i)) as [_ Hc].
      rewrite Hc; [done|]. unfold axis_index. lia.
Qed.

Lemma negative_index_normalization_witness :
  group arange_2_3_4 (-2) 3 = group arange_2_3_4 1 3.
Proof.
  destruct (negative_index_normalization arange_2_3_4 (-2)) as [H _].
  destruct H as (H & _ & _); [vm_compute; split; congruence|].
  apply H.
Defined.

(** ** Round trips *)

(** X14: [group] then [ungroup] with the merged sub-shape gives the array
    back, shape and elements, provided the range is valid and no axis
    outside the merged range has size zero ([b] and [e] may be negative;
    [ungroup] is given the normalized [b]). *)
Lemma ungroup_after_group {A} (T : ndarray A) (b e : Z) :
  Forall (fun d => 0 <= d) (shape T) ->
  axis_range (ndim T) (normalize (ndim T) b) (normalize (ndim T) e) ->
  prod (slice_to (shape T) (normalize (ndim T) b))
  * prod (slice_from (shape T) (normalize (ndim T) e)) <> 0 ->
  (g <- group T b e ;;;
   ungroup g (normalize (ndim T) b)
     (slice (shape T) (normalize (ndim T) b) (normalize (ndim T) e)))
  = Ok T.
Proof.
  destruct T as [sh data]. cbn [shape flat].
  intros Hnn (H0 & Hlt & Hle).
  remember (normalize (ndim (mk_ndarray sh data)) b) as nb eqn:Hnb.
  remember (normalize (ndim (mk_ndarray sh data)) e) as ne eqn:Hne.
  destruct (shape_split3 sh nb ne) as (Hsh & Hl1 & Hl2);
    [lia | unfold ndim in Hle; cbn [shape] in Hle; lia |].
  remember (slice_to sh nb) as pre.
  remember (slice sh nb ne) as mid.
  remember (slice_from sh ne) as post.
  intros Hout.
  pose proof (ungroup_group_app pre mid post data b e) as R.
  rewrite <- Hsh, Hl1 in R. apply R.
  - done.
  - intros ->. cbn in Hl2. lia.
  - done.
  - lia.
  - lia.
Qed.

(** C8 (as amended): for an in-range axis [t] and a split sequence of
    positive entries whose product is [shape(T)[t]]: when [split] is not
    empty, no other axis of [T] has size zero and the split array has at
    most [NPY_MAXDIMS] axes,
    [group(ungroup(T, t, split), t, t + len(split))] is [T], shape and
    elements; when [split] is empty and [T] has two axes or more,
    [ungroup] succeeds and the [group] call that follows is rejected with
    InvalidAxisRange, its range being empty. *)
Theorem group_after_ungroup {A} (T : ndarray A) (t : Z) (split : list Z) :
  wf_ndarray T ->
  axis_index (ndim T) (normalize (ndim T) t) ->
  Forall (fun d => 0 < d) split ->
  prod split = axis_size T (normalize (ndim T) t) ->
  (split <> [] ->
   prod (slice_to (shape T) (normalize (ndim T) t))
   * prod (slice_from (shape T) (normalize (ndim T) t + 1)) <> 0 ->
   ndim T - 1 + Z.of_nat (length split) <= NPY_MAXDIMS ->
   (u <- ungroup T t split ;;;
    group u (normalize (ndim T) t)
      (normalize (ndim T) t + Z.of_nat (length split)))
   = Ok T) /\
  (split = [] ->
   2 <= ndim T ->
   (exists U, ungroup T t split = Ok U) /\
   (u <- ungroup T t split ;;;
    group u (normalize (ndim T) t)
      (normalize (ndim T) t + Z.of_nat (length split)))
   = Raise InvalidAxisRange).
Proof.
  intros [Hnn _] Hin Hpos Hprod.
  assert (Hsplit : Forall (fun d => 0 <= d) split).
  { eapply Forall_impl; [exact Hpos|]. cbn. intros d Hd. lia. }
  split.
  - destruct T as [sh data]. unfold axis_size in Hprod.
    cbn [shape flat] in *. destruct Hin as [H0 Hlt].
    remember (normalize (ndim (mk_ndarray sh data)) t) as nt eqn:Hnt.
    destruct (shape_split_axis sh nt) as (Hsh & Hl1);
      [unfold ndim in Hlt; cbn [shape] in Hlt; lia|].
    rewrite <- Hprod in Hsh.
    remember (slice_to sh nt) as pre.
    remember (slice_from sh (nt + 1)) as post.
    intros Hne Hout _.
    pose proof (group_ungroup_app pre post split data t) as R.
    rewrite <- Hsh, Hl1 in R. apply R; [done|done|done|done|lia].
  - intros -> Hn.
    rewrite ungroup_in_range_nonempty by (done || (cbn [length]; lia)).
    rewrite <- Hprod, Z.eqb_refl. cbn [bind length].
    split; [by eauto|].
    apply group_range_check_fails.
    destruct Hin as [H0 Hlt].
    remember (normalize (ndim T) t) as nt eqn:Hnt.
    rewrite !(normalize_nonneg _ nt), !(normalize_nonneg _ (nt + _)) by lia.
    unfold axis_range. lia.
Qed.

Lemma group_after_ungroup_witness :
  (u <- ungroup arange_2_12 (-1) [3; 4] ;;; group u 1 (1 + 2))
  = Ok arange_2_12.
Proof.
  destruct (group_after_ungroup arange_2_12 (-1) [3; 4] wf_arange_2_12)
    as [H _].
  - split; vm_compute; congruence.
  - repeat constructor; lia.
  - reflexivity.
  - apply H; [discriminate | vm_compute; discriminate
             | vm_compute; congruence].
Defined.

(** C8 as stated fails on the empty split:
    [ungroup(np.arange(3).reshape(1, 3), 0, ())] returns the array of shape
    [(3,)], and [group] of it over [0, 0) is rejected. *)
Lemma group_after_ungroup_empty_split_fails :
  wf_ndarray arange_1_3 /\
  axis_index (ndim arange_1_3) 0 /\
  prod [] = axis_size arange_1_3 0 /\
  ungroup arange_1_3 0 [] = Ok (mk_ndarray [3] (seqZ 0 3)) /\
  (u <- ungroup arange_1_3 0 [] ;;;
   group u 0 (0 + Z.of_nat (length (@nil Z))))
  = Raise InvalidAxisRange.
Proof.
  split_and!; [apply wf_arange_1_3 | split; vm_compute; congruence | done..].
Qed.

(** ** Axes of size zero *)

(** [group] raises on every array with an axis of size zero outside the
    merged range, however valid the range. *)
Lemma group_zero_outside {A} (T : ndarray A) (b e : Z) :
  Forall (fun d => 0 <= d) (shape T) ->
  axis_range (ndim T) (normalize (ndim T) b) (normalize (ndim T) e) ->
  prod (slice_to (shape T) (normalize (ndim T) b))
  * prod (slice_from (shape T) (normalize (ndim T) e)) = 0 ->
  group T b e =
  Raise (ValueError (msg_reshape_size (size T)
           (slice_to (shape T) (normalize (ndim T) b) ++ [-1]
            ++ slice_from (shape T) (normalize (ndim T) e)))).
Proof.
  intros Hnn Hr Hz. rewrite group_in_range by done. by rewrite Hz.
Qed.

(** With no axis of size zero outside the merged range, the shape law of
    [group] holds and the elements are kept. *)
Lemma group_shape_law {A} (T : ndarray A) (b e : Z) :
  Forall (fun d => 0 <= d) (shape T) ->
  axis_range (ndim T) (normalize (ndim T) b) (normalize (ndim T) e) ->
  prod (slice_to (shape T) (normalize (ndim T) b))
  * prod (slice_from (shape T) (normalize (ndim T) e)) <> 0 ->
  group T b e =
  Ok (mk_ndarray
        (slice_to (shape T) (normalize (ndim T) b)
         ++ [prod (slice (shape T) (normalize (ndim T) b)
                    (normalize (ndim T) e))]
         ++ slice_from (shape T) (normalize (ndim T) e))
        (flat T)).
Proof.
  intros Hnn Hr Hz. rewrite group_in_range by done.
  by destruct (Z.eqb_spec (prod (slice_to (shape T) (normalize (ndim T) b))
    * prod (slice_from (shape T) (normalize (ndim T) e))) 0).
Qed.

(** C1: on [np.zeros((3, 0))] with the valid range [0, 1) the round trip
    [ungroup(group(T, 0, 1), 0, shape(T)[0:1])] returns no tensor:
    [group] calls [reshape(-1, 0)], which raises. *)
Theorem ungroup_after_group_zeros_3_0 :
  wf_ndarray zeros_3_0 /\
  axis_range (ndim zeros_3_0) 0 1 /\
  (g <- group zeros_3_0 0 1 ;;; ungroup g 0 (slice (shape zeros_3_0) 0 1))
  = Raise (ValueError (msg_reshape_size 0 [-1; 0])).
Proof.
  split_and!; [apply wf_zeros_3_0 | split_and!; vm_compute; congruence | done].
Qed.

(** C3: on [np.zeros((0, 3))] with the valid range [1, 2) [group] returns
    no tensor of shape [(0, 3)]: it calls [reshape(0, -1)], which raises. *)
Theorem group_zeros_0_3 :
  wf_ndarray zeros_0_3 /\
  axis_range (ndim zeros_0_3) 1 2 /\
  slice_to (shape zeros_0_3) 1 ++ [prod (slice (shape zeros_0_3) 1 2)]
    ++ slice_from (shape zeros_0_3) 2 = [0; 3] /\
  group zeros_0_3 1 2 = Raise (ValueError (msg_reshape_size 0 [0; -1])).
Proof.
  split_and!; [apply wf_zeros_0_3 | split_and!; vm_compute; congruence | done..].
Qed.

(** ** Validation of [tsvd] *)

Lemma group_not_split_point {A} (T : ndarray A) (b e : Z) :
  group T b e <> Raise InvalidSplitPoint.
Proof.
  intros H.
  apply group_raises in H as [[[=] _] | (_ & m & [= <-] & Hm)].
  destruct Hm as [|(? & ? & ?)]; done.
Qed.

Lemma ungroup_not_split_point {A} (T : ndarray A) (t : Z) (split : list Z) :
  ungroup T t split <> Raise InvalidSplitPoint.
Proof.
  intros H.
  apply ungroup_raises in H
    as [[[=] _] | [([=] & _) | (_ & _ & [[=] | (m & [= <-] & Hm)])]].
  destruct Hm as [|(? & ? & ?)]; done.
Qed.

(** C6: [tsvd(T, nu)] fails with InvalidSplitPoint exactly when [nu] is
    outside [1, ndim(T) - 1]; in particular it fails for [nu == 0] and for
    [nu == ndim(T)].  This holds for every [T], so for every [T] with
    [ndim(T) >= 2], and whatever the dense SVD routine does. *)
Theorem tsvd_split_point_validation {A}
    (svd : ndarray A -> option (ndarray A * list A * ndarray A))
    (T : ndarray A) (nu : Z) :
  (tsvd svd T nu = Raise InvalidSplitPoint <-> ~ (1 <= nu <= ndim T - 1)) /\
  tsvd svd T 0 = Raise InvalidSplitPoint /\
  tsvd svd T (ndim T) = Raise InvalidSplitPoint.
Proof.
  assert (Hchk : forall k, ~ (1 <= k <= ndim T - 1) ->
                 tsvd svd T k = Raise InvalidSplitPoint).
  { intros k Hk. unfold tsvd.
    destruct (Z.leb_spec 1 k), (Z.leb_spec k (ndim T - 1)); cbn; (lia || done). }
  split_and!; [split|..]; [|by apply Hchk|apply Hchk; lia|apply Hchk; lia].
  intros H Hin. unfold tsvd in H.
  destruct (Z.leb_spec 1 nu), (Z.leb_spec nu (ndim T - 1)); try lia.
  cbn [andb negb] in H.
  destruct (group T nu (ndim T)) as [cols|x] eqn:E1; cbn [bind] in H;
    [|injection H as ->; by apply group_not_split_point in E1].
  destruct (group cols 0 nu) as [m|x] eqn:E2; cbn [bind] in H;
    [|injection H as ->; by apply group_not_split_point in E2].
  destruct (svd m) as [[[u_mat s] v_mat]|]; [|done].
  destruct (ungroup u_mat 0 _) as [u|x] eqn:E3; cbn [bind] in H;
    [|injection H as ->; by apply ungroup_not_split_point in E3].
  destruct (ungroup v_mat 0 _) as [v|x] eqn:E4; cbn [bind] in H;
    [|injection H as ->; by apply ungroup_not_split_point in E4].
  done.
Qed.

Lemma tsvd_split_point_validation_witness :
  tsvd (fun _ => None) eye_3 2 = Raise InvalidSplitPoint.
Proof.
  apply (proj1 (tsvd_split_point_validation (fun _ => None) eye_3 2)).
  vm_compute. intros [_ H]. by apply H.
Defined.

(** ** Row-major order of the merged axis *)

Lemma ravel_app sh1 sh2 idx1 idx2 acc :
  length sh1 = length idx1 ->
  ravel (sh1 ++ sh2) (idx1 ++ idx2) acc = ravel sh2 idx2 (ravel sh1 idx1 acc).
Proof.
  revert idx1 acc. induction sh1 as [|d sh1 IH]; intros [|i idx1] acc Hlen;
    cbn in Hlen; try done.
  cbn [app ravel]. apply IH. lia.
Qed.

Lemma ravel_acc sh idx acc :
  length sh = length idx ->
  ravel sh idx acc = acc * prod sh + ravel sh idx 0.
Proof.
  revert idx acc. induction sh as [|d sh IH]; intros [|i idx] acc Hlen;
    cbn in Hlen; try done.
  - cbn [ravel]. rewrite prod_nil. lia.
  - cbn [ravel]. rewrite (IH idx (acc * d + i)), (IH idx (0 * d + i)) by lia.
    rewrite prod_cons. lia.
Qed.

(** X13: the merged axis is in row-major order: the element of
    [group(T, b, e)] at position [k] of the merged axis, with [k] the
    C-order position of [imid] within the merged axes, is the element of
    [T] at [imid]. *)
Lemma group_item {A} (pre mid post : list Z) (data : list A)
    (b e : Z) (G : ndarray A) (ipre imid ipost : list Z) :
  Forall (fun d => 0 <= d) (pre ++ mid ++ post) ->
  mid <> [] ->
  normalize (ndim (mk_ndarray (pre ++ mid ++ post) data)) b
    = Z.of_nat (length pre) ->
  normalize (ndim (mk_ndarray (pre ++ mid ++ post) data)) e
    = Z.of_nat (length pre) + Z.of_nat (length mid) ->
  group (mk_ndarray (pre ++ mid ++ post) data) b e = Ok G ->
  length ipre = length pre -> length imid = length mid ->
  item G (ipre ++ [ravel mid imid 0] ++ ipost)
  = item (mk_ndarray (pre ++ mid ++ post) data) (ipre ++ imid ++ ipost).
Proof.
  intros Hnn Hmid Hb He HG Hl1 Hl2.
  rewrite group_app in HG by done.
  destruct (prod pre * prod post =? 0); [done|]. injection HG as <-.
  unfold item. cbn [shape flat]. do 2 f_equal.
  rewrite !ravel_app by (cbn [length]; lia).
  cbn [ravel]. f_equal.
  rewrite (ravel_acc mid imid (ravel pre ipre 0)) by lia. done.
Qed.

(** ** [reshape] keeps arrays well formed *)

Lemma fix_unknown_dimension_ok dims s dims' :
  0 <= s ->
  fix_unknown_dimension dims s = Ok dims' ->
  Forall (fun d => 0 <= d) dims' /\ prod dims' = s.
Proof.
  intros Hs.
  destruct (forallb (fun d => 0 <=? d) dims) eqn:Hall.
  - apply forallb_nonneg in Hall.
    rewrite fix_unknown_dimension_known by done.
    destruct (Z.eqb_spec s (prod dims)); [|done]. by intros [= <-].
  - assert (Exists (fun d => d < 0) dims) as Hex.
    { clear -Hall. induction dims as [|x l IH]; cbn [forallb] in Hall; [done|].
      destruct (Z.leb_spec 0 x); cbn [andb] in Hall.
      - right. by apply IH.
      - by left. }
    destruct (first_negative dims Hex) as (s1 & d & s2 & -> & Hs1 & Hd).
    destruct (forallb (fun d => 0 <=? d) s2) eqn:Hs2.
    + apply forallb_nonneg in Hs2.
      change (s1 ++ d :: s2) with (s1 ++ [d] ++ s2).
      rewrite (fix_unknown_dimension_hole s1 s2 d s) by done. cbn zeta.
      pose proof (prod_nonneg _ Hs1). pose proof (prod_nonneg _ Hs2).
      destruct (Z.eqb_spec (prod s1 * prod s2) 0); [done|]. cbn [orb].
      destruct (Z.eqb_spec (Z.rem s (prod s1 * prod s2)) 0) as [Hr|];
        [|done]. cbn [negb]. intros [= <-].
      assert (0 < prod s1 * prod s2) by lia.
      pose proof (Z.quot_rem' s (prod s1 * prod s2)) as Hqr.
      rewrite Hr, Z.add_0_r in Hqr.
      split.
      * apply Forall_app. split; [done|].
        constructor; [|done]. apply Z.quot_pos; lia.
      * cbn [app]. rewrite prod_app, prod_cons. lia.
    + unfold fix_unknown_dimension.
      rewrite scan_dims_app by done. cbn [scan_dims].
      destruct (Z.ltb_spec d 0); [|lia].
      rewrite scan_dims_seen, Hs2. done.
Qed.

Lemma reshape_wf {A} (arr r : ndarray A) (dims : list Z) :
  wf_ndarray arr -> reshape arr dims = Ok r -> wf_ndarray r.
Proof.
  intros [Hnn Hlen]. unfold reshape.
  destruct (fix_unknown_dimension dims (size arr)) as [dims'|] eqn:E;
    cbn [bind]; [|done].
  intros [= <-].
  apply fix_unknown_dimension_ok in E as [Hd Hp];
    [|by apply prod_nonneg].
  split; [done|]. unfold size. cbn [shape flat]. by rewrite Hp.
Qed.

(** X15: [group] keeps arrays well formed: what it returns has no negative
    axis size and as many elements as its shape asks for. *)
Lemma group_wf {A} (T G : ndarray A) (b e : Z) :
  wf_ndarray T -> group T b e = Ok G -> wf_ndarray G.
Proof.
  intros Hwf. unfold group. destruct (negb _); [done|]. by apply reshape_wf.
Qed.

(** X16: [ungroup] keeps arrays well formed: what it returns has no
    negative axis size, whatever [split] held, and as many elements as its
    shape asks for. *)
Lemma ungroup_wf {A} (T U : ndarray A) (t : Z) (split : list Z) :
  wf_ndarray T -> ungroup T t split = Ok U -> wf_ndarray U.
Proof.
  intros Hwf. unfold ungroup, reshape_call.
  destruct (negb (_ && _)); [done|]. destruct (negb (_ =? _)); [done|].
  destruct (_ ++ _ ++ _) eqn:E; [done|]. rewrite <- E.
  by apply reshape_wf.
Qed.

(** * Further properties of [group] and [ungroup] *)

(** Checks of [0 <= b < e <= n] and [0 <= t < n] on concrete numbers. *)
Ltac concrete_range :=
  unfold axis_range, axis_index; split_and!; vm_compute; congruence.

(** ** When [group] returns, and what *)

(** The outcome of [group] read backwards: a returned array tells that the
    range was valid, that no axis outside it has size zero, and what the
    array is. *)
Lemma group_ok_inv {A} (T G : ndarray A) (b e : Z) :
  Forall (fun d => 0 <= d) (shape T) ->
  group T b e = Ok G ->
  axis_range (ndim T) (normalize (ndim T) b) (normalize (ndim T) e) /\
  prod (slice_to (shape T) (normalize (ndim T) b))
  * prod (slice_from (shape T) (normalize (ndim T) e)) <> 0 /\
  G = mk_ndarray
        (slice_to (shape T) (normalize (ndim T) b)
         ++ [prod (slice (shape T) (normalize (ndim T) b)
                    (normalize (ndim T) e))]
         ++ slice_from (shape T) (normalize (ndim T) e))
        (flat T).
Proof.
  intros Hnn.
  destruct (decide (axis_range (ndim T) (normalize (ndim T) b)
                      (normalize (ndim T) e))) as [Hr|Hr].
  - rewrite group_in_range by done.
    destruct (Z.eqb_spec
                (prod (slice_to (shape T) (normalize (ndim T) b))
                 * prod (slice_from (shape T) (normalize (ndim T) e))) 0);
      [done|]. by intros [= <-].
  - by rewrite group_range_check_fails.
Qed.

(** X1: [group(T, b, e)] returns an array exactly when the normalized range
    is valid and no axis outside the range has size zero; the array it
    returns has the shape [shape[:b] + (prod(shape[b:e]),) + shape[e:]] and
    the elements of [T] in the same order. *)
Theorem group_succeeds_iff {A} (T G : ndarray A) (b e : Z) :
  wf_ndarray T ->
  (group T b e = Ok G <->
   axis_range (ndim T) (normalize (ndim T) b) (normalize (ndim T) e) /\
   prod (slice_to (shape T) (normalize (ndim T) b))
   * prod (slice_from (shape T) (normalize (ndim T) e)) <> 0 /\
   G = mk_ndarray
         (slice_to (shape T) (normalize (ndim T) b)
          ++ [prod (slice (shape T) (normalize (ndim T) b)
                     (normalize (ndim T) e))]
          ++ slice_from (shape T) (normalize (ndim T) e))
         (flat T)).
Proof.
  intros [Hnn _]. split.
  - by apply group_ok_inv.
  - intros (Hr & Hout & ->). rewrite group_in_range by done.
    by destruct (Z.eqb_spec
                   (prod (slice_to (shape T) (normalize (ndim T) b))
                    * prod (slice_from (shape T) (normalize (ndim T) e))) 0).
Qed.

Lemma group_succeeds_iff_witness :
  group arange_2_3_4 (-2) 3 = Ok arange_2_12.
Proof.
  apply (group_succeeds_iff arange_2_3_4 arange_2_12 (-2) 3 wf_arange_2_3_4).
  split; [concrete_range|]. split; [vm_compute; discriminate | done].
Defined.

(** X2: on a well-formed array [group] raises one of two errors, and each
    has its own cause: the range error when the normalized range is not
    valid, and NumPy's size error from [reshape] when the range is valid
    but an axis outside it has size zero.  It never raises the "one unknown
    dimension" error. *)
Theorem group_errors {A} (T : ndarray A) (b e : Z) (x : exn) :
  wf_ndarray T ->
  (group T b e = Raise x <->
   (x = InvalidAxisRange /\
    ~ axis_range (ndim T) (normalize (ndim T) b) (normalize (ndim T) e)) \/
   (x = ValueError (msg_reshape_size (size T)
          (slice_to (shape T) (normalize (ndim T) b) ++ [-1]
           ++ slice_from (shape T) (normalize (ndim T) e))) /\
    axis_range (ndim T) (normalize (ndim T) b) (normalize (ndim T) e) /\
    prod (slice_to (shape T) (normalize (ndim T) b))
    * prod (slice_from (shape T) (normalize (ndim T) e)) = 0)).
Proof.
  intros [Hnn _].
  destruct (decide (axis_range (ndim T) (normalize (ndim T) b)
                      (normalize (ndim T) e))) as [Hr|Hr].
  - rewrite group_in_range by done.
    destruct (Z.eqb_spec
                (prod (slice_to (shape T) (normalize (ndim T) b))
                 * prod (slice_from (shape T) (normalize (ndim T) e))) 0)
      as [Hz|Hz].
    + split.
      * intros [= <-]. right. done.
      * intros [[_ Hn] | (-> & _ & _)]; done.
    + split; [done|]. intros [[_ Hn] | (_ & _ & Hz')]; done.
  - rewrite group_range_check_fails by done. split.
    + intros [= <-]. by left.
    + intros [[-> _] | (_ & Hr' & _)]; done.
Qed.

Lemma group_errors_witness :
  group zeros_0_3 (-1) 2 = Raise (ValueError (msg_reshape_size 0 [0; -1])).
Proof.
  apply (group_errors zeros_0_3 (-1) 2 _ wf_zeros_0_3).
  right. split; [done|]. split; [concrete_range | done].
Defined.

(** X3: when [group(T, b, e)] returns [G], the number of axes drops by
    [e - b - 1] (normalized bounds), the number of elements is unchanged,
    and the elements are those of [T] in the same order. *)
Theorem group_ndim {A} (T G : ndarray A) (b e : Z) :
  wf_ndarray T ->
  group T b e = Ok G ->
  ndim G = ndim T - (normalize (ndim T) e - normalize (ndim T) b) + 1 /\
  size G = size T /\
  flat G = flat T.
Proof.
  intros [Hnn _] HG.
  apply group_ok_inv in HG as ((H0 & Hlt & Hle) & _ & ->); [|done].
  unfold ndim, size in *. cbn [shape flat].
  remember (normalize (Z.of_nat (length (shape T))) b) as nb eqn:Hnb.
  remember (normalize (Z.of_nat (length (shape T))) e) as ne eqn:Hne.
  destruct (shape_split3 (shape T) nb ne) as (Hsh & Hl1 & Hl2); [lia..|].
  split_and!; [| |done].
  - rewrite Hsh at 4. rewrite !length_app. cbn [length].
    rewrite !Nat2Z.inj_add, Hl2. lia.
  - rewrite Hsh at 4. rewrite !prod_app, prod_cons, prod_nil. lia.
Qed.

Lemma group_ndim_witness :
  ndim arange_2_12 = 3 - (3 - 1) + 1 /\
  size arange_2_12 = size arange_2_3_4 /\
  flat arange_2_12 = flat arange_2_3_4.
Proof.
  apply (group_ndim arange_2_3_4 arange_2_12 1 3 wf_arange_2_3_4).
  reflexivity.
Defined.

(** ** When [ungroup] returns, and what *)

(** A [split] with a negative entry is refused on every well-formed array,
    by one check or another. *)
Lemma ungroup_negative_split_fails {A} (T : ndarray A) (t : Z)
    (split : list Z) :
  Forall (fun d => 0 <= d) (shape T) ->
  Exists (fun d => d < 0) split ->
  exists x, ungroup T t split = Raise x.
Proof.
  intros Hnn Hex. unfold ungroup.
  destruct (negb (_ && _)) eqn:Hchk; [by eauto|].
  assert (Hin : axis_index (ndim T) (normalize (ndim T) t)).
  { destruct (decide (axis_index (ndim T) (normalize (ndim T) t)))
      as [|Hn]; [done|].
    apply ungroup_check_spec in Hn. congruence. }
  destruct (Z.eqb_spec (axis_size T (normalize (ndim T) t)) (prod split))
    as [Heq|]; cbn [negb]; [|by eauto].
  assert (0 <= prod split) as Hprod.
  { rewrite <- Heq. unfold axis_size. destruct Hin as [H0 Hlt].
    apply (Forall_lookup_total_1 (fun d => 0 <= d)); [done|].
    unfold ndim in *.
    remember (normalize (Z.of_nat (length (shape T))) t) as nt. lia. }
  unfold reshape_call.
  destruct (_ ++ _ ++ _) eqn:E; [by eauto|]. rewrite <- E.
  unfold reshape.
  destruct (fix_unknown_dimension_negative_split
              (slice_to (shape T) (normalize (ndim T) t)) split
              (slice_from (shape T) (normalize (ndim T) t + 1))
              (size T)) as [-> | ->];
    [|done|done|cbn [bind]; eauto..].
  unfold slice_to. by apply Forall_take.
Qed.

Lemma ungroup_ok_inv {A} (T U : ndarray A) (t : Z) (split : list Z) :
  Forall (fun d => 0 <= d) (shape T) ->
  ungroup T t split = Ok U ->
  axis_index (ndim T) (normalize (ndim T) t) /\
  prod split = axis_size T (normalize (ndim T) t) /\
  Forall (fun d => 0 <= d) split /\
  U = mk_ndarray
        (slice_to (shape T) (normalize (ndim T) t) ++ split
         ++ slice_from (shape T) (normalize (ndim T) t + 1))
        (flat T) /\
  slice_to (shape T) (normalize (ndim T) t) ++ split
  ++ slice_from (shape T) (normalize (ndim T) t + 1) <> [].
Proof.
  intros Hnn HU.
  assert (Hsplit : Forall (fun d => 0 <= d) split).
  { destruct (decide (Forall (fun d => 0 <= d) split)) as [|Hn]; [done|].
    apply not_Forall_Exists in Hn; [|apply _].
    destruct (ungroup_negative_split_fails T t split Hnn) as [x Hx];
      [|congruence].
    eapply Exists_impl; [exact Hn|]. cbn. intros d Hd. lia. }
  assert (Hin : axis_index (ndim T) (normalize (ndim T) t)).
  { destruct (decide (axis_index (ndim T) (normalize (ndim T) t)))
      as [|Hn]; [done|].
    unfold ungroup in HU. apply ungroup_check_spec in Hn.
    rewrite Hn in HU. done. }
  rewrite ungroup_in_range in HU by done.
  destruct (Z.eqb_spec (axis_size T (normalize (ndim T) t)) (prod split));
    [|done].
  destruct (slice_to (shape T) (normalize (ndim T) t) ++ split
            ++ slice_from (shape T) (normalize (ndim T) t + 1))
    as [|d dims] eqn:E; [done|].
  injection HU as <-. done.
Qed.

(** X4: what a returned array tells: whenever [ungroup(T, t, split)]
    returns [U] on a well-formed array, the normalized target is in range,
    [prod(split)] is the size of the target axis, no entry of [split] is
    negative, [U] has the shape [shape[:t] + split + shape[t+1:]] with the
    elements of [T] in the same order, and [U] has at least one axis. *)
Theorem ungroup_returns_only {A} (T U : ndarray A) (t : Z) (split : list Z) :
  wf_ndarray T ->
  ungroup T t split = Ok U ->
  axis_index (ndim T) (normalize (ndim T) t) /\
  prod split = axis_size T (normalize (ndim T) t) /\
  Forall (fun d => 0 <= d) split /\
  U = mk_ndarray
        (slice_to (shape T) (normalize (ndim T) t) ++ split
         ++ slice_from (shape T) (normalize (ndim T) t + 1))
        (flat T) /\
  1 <= ndim U.
Proof.
  intros [Hnn _] HU.
  apply ungroup_ok_inv in HU as (Hin & Hprod & Hsplit & -> & Hne); [|done].
  split_and!; try done.
  unfold ndim at 1. cbn [shape].
  destruct (slice_to (shape T) (normalize (ndim T) t) ++ split
            ++ slice_from (shape T) (normalize (ndim T) t + 1)); [done|].
  cbn [length]. lia.
Qed.

Lemma ungroup_returns_only_witness :
  axis_index (ndim arange_2_12) (normalize (ndim arange_2_12) (-1)) /\
  prod [3; 4] = axis_size arange_2_12 (normalize (ndim arange_2_12) (-1)) /\
  Forall (fun d => 0 <= d) [3; 4] /\
  arange_2_3_4
  = mk_ndarray
      (slice_to (shape arange_2_12) (normalize (ndim arange_2_12) (-1))
       ++ [3; 4]
       ++ slice_from (shape arange_2_12)
            (normalize (ndim arange_2_12) (-1) + 1))
      (flat arange_2_12) /\
  1 <= ndim arange_2_3_4.
Proof.
  apply (ungroup_returns_only arange_2_12 arange_2_3_4 (-1) [3; 4]
           wf_arange_2_12).
  reflexivity.
Defined.

(** X5: when [ungroup(T, t, split)] returns [U], the number of axes grows
    by [len(split) - 1], the number of elements is unchanged, and the
    elements are those of [T] in the same order. *)
Theorem ungroup_ndim {A} (T U : ndarray A) (t : Z) (split : list Z) :
  wf_ndarray T ->
  ungroup T t split = Ok U ->
  ndim U = ndim T - 1 + Z.of_nat (length split) /\
  size U = size T /\
  flat U = flat T.
Proof.
  intros [Hnn _] HU.
  apply ungroup_ok_inv in HU as ((H0 & Hlt) & Hprod & _ & -> & _); [|done].
  unfold ndim, size, axis_size in *. cbn [shape flat].
  remember (normalize (Z.of_nat (length (shape T))) t) as nt eqn:Hnt.
  destruct (shape_split_axis (shape T) nt) as (Hsh & Hl1); [lia|].
  split_and!; [| |done].
  - rewrite Hsh at 3. rewrite !length_app. cbn [length].
    rewrite !Nat2Z.inj_add. lia.
  - rewrite Hsh at 3. rewrite !prod_app, prod_cons, prod_nil, Hprod. lia.
Qed.

Lemma ungroup_ndim_witness :
  ndim arange_2_3_4 = 2 - 1 + 2 /\
  size arange_2_3_4 = size arange_2_12 /\
  flat arange_2_3_4 = flat arange_2_12.
Proof.
  apply (ungroup_ndim arange_2_12 arange_2_3_4 1 [3; 4] wf_arange_2_12).
  reflexivity.
Defined.

(** ** Calls that change nothing, and the extreme ranges *)

(** X6: merging a single axis is the identity: for a [b] that is in range
    after normalization and an array with no axis of size zero besides that
    axis, [group(T, b, b' + 1)] returns [T] itself, where [b'] is the
    normalized [b] (for [b >= 0], [b' = b]). *)
Theorem group_single_axis {A} (T : ndarray A) (b : Z) :
  wf_ndarray T ->
  axis_index (ndim T) (normalize (ndim T) b) ->
  prod (slice_to (shape T) (normalize (ndim T) b))
  * prod (slice_from (shape T) (normalize (ndim T) b + 1)) <> 0 ->
  group T b (normalize (ndim T) b + 1) = Ok T.
Proof.
  intros [Hnn _] [H0 Hlt] Hout.
  remember (normalize (ndim T) b) as nb eqn:Hnb.
  assert (He : normalize (ndim T) (nb + 1) = nb + 1)
    by (apply normalize_nonneg; lia).
  rewrite group_in_range; rewrite ?He, <- ?Hnb; [|done|unfold axis_range; lia].
  destruct (Z.eqb_spec (prod (slice_to (shape T) nb)
                        * prod (slice_from (shape T) (nb + 1))) 0); [done|].
  destruct T as [sh data]. cbn [shape flat] in *. do 2 f_equal.
  unfold ndim in Hlt. cbn [shape] in Hlt.
  destruct (shape_split3 sh nb (nb + 1)) as (Hsh & Hl1 & Hl2); [lia..|].
  destruct (slice sh nb (nb + 1)) as [|y [|z mid]] eqn:Hmid;
    cbn [length] in Hl2; [lia| |lia].
  rewrite prod_cons, prod_nil, Z.mul_1_r. by symmetry.
Qed.

Lemma group_single_axis_witness :
  group arange_2_3_4 (-2) (1 + 1) = Ok arange_2_3_4.
Proof.
  apply (group_single_axis arange_2_3_4 (-2) wf_arange_2_3_4).
  - concrete_range.
  - vm_compute. discriminate.
Defined.

(** X7: merging all axes always works: for an array with at least one
    axis, also one with axes of size zero, [group(T, 0, ndim(T))] returns
    the one-axis array of all [size(T)] elements in C order. *)
Theorem group_all_axes {A} (T : ndarray A) :
  wf_ndarray T ->
  1 <= ndim T ->
  group T 0 (ndim T) = Ok (mk_ndarray [size T] (flat T)).
Proof.
  intros [Hnn _] Hn.
  assert (H0 : normalize (ndim T) 0 = 0) by done.
  assert (He : normalize (ndim T) (ndim T) = ndim T)
    by (apply normalize_nonneg; lia).
  rewrite group_in_range; rewrite ?H0, ?He; [|done|unfold axis_range; lia].
  unfold ndim, size in *.
  rewrite slice_to_in_range, slice_from_in_range, slice_in_range by lia.
  rewrite Nat2Z.id. cbn [Z.to_nat take drop].
  rewrite drop_all, Nat.sub_0_r, firstn_all, prod_nil. cbn [app].
  done.
Qed.

Lemma group_all_axes_witness :
  group zeros_3_0 0 2 = Ok (mk_ndarray [0] []).
Proof.
  apply (group_all_axes zeros_3_0 wf_zeros_3_0). vm_compute. discriminate.
Defined.

(** X8: an array without axes (what [np.asarray] makes of a scalar) has no
    axis to merge and none to split: every call of [group] on it raises
    the range error and every call of [ungroup] the target error. *)
Theorem zero_dim_rejected {A} (T : ndarray A) :
  ndim T = 0 ->
  (forall b e, group T b e = Raise InvalidAxisRange) /\
  (forall t split, ungroup T t split = Raise InvalidAxisIndex).
Proof.
  intros Hn. split.
  - intros b e. apply group_range_check_fails. rewrite Hn.
    unfold axis_range, normalize.
    destruct (b <? 0) eqn:Eb, (e <? 0) eqn:Ee; lia.
  - intros t split. unfold ungroup.
    destruct (ungroup_check_spec (ndim T) (normalize (ndim T) t)) as [_ Hc].
    rewrite Hc; [done|]. rewrite Hn. unfold axis_index. lia.
Qed.

Lemma zero_dim_rejected_witness :
  group (mk_ndarray [] [7]) 0 1 = Raise InvalidAxisRange.
Proof.
  apply (zero_dim_rejected (mk_ndarray [] [7])). reflexivity.
Defined.

(** X9: splitting an axis into itself is the identity: for an in-range
    target, [ungroup(T, t, (shape[t],))] returns [T] itself. *)
Theorem ungroup_single_entry {A} (T : ndarray A) (t : Z) :
  wf_ndarray T ->
  axis_index (ndim T) (normalize (ndim T) t) ->
  ungroup T t [axis_size T (normalize (ndim T) t)] = Ok T.
Proof.
  intros [Hnn _] [H0 Hlt].
  remember (normalize (ndim T) t) as nt eqn:Hnt.
  assert (0 <= axis_size T nt) as Hx.
  { unfold axis_size. apply (Forall_lookup_total_1 (fun d => 0 <= d));
      [done|]. unfold ndim in Hlt. lia. }
  rewrite ungroup_in_range_nonempty; rewrite <- ?Hnt;
    [|done|by repeat constructor|done|cbn [length]; lia].
  rewrite prod_cons, prod_nil, Z.mul_1_r, Z.eqb_refl.
  destruct T as [sh data]. unfold axis_size. cbn [shape flat] in *.
  do 2 f_equal. unfold ndim in Hlt. cbn [shape] in Hlt.
  destruct (shape_split_axis sh nt) as [Hsh _]; [lia|]. by symmetry.
Qed.

Lemma ungroup_single_entry_witness :
  ungroup arange_2_3_4 (-1) [4] = Ok arange_2_3_4.
Proof.
  apply (ungroup_single_entry arange_2_3_4 (-1) wf_arange_2_3_4).
  concrete_range.
Defined.

(** ** Composition *)

(** Merging in two steps on a shape [pre ++ mid1 ++ mid2 ++ post]. *)
Lemma group_group_app {A} (pre mid1 mid2 post : list Z) (data : list A) :
  Forall (fun d => 0 <= d) (pre ++ mid1 ++ mid2 ++ post) ->
  mid1 <> [] ->
  group (mk_ndarray (pre ++ [prod mid1] ++ mid2 ++ post) data)
    (Z.of_nat (length pre))
    (Z.of_nat (length pre) + 1 + Z.of_nat (length mid2))
  = group (mk_ndarray (pre ++ mid1 ++ mid2 ++ post) data)
      (Z.of_nat (length pre))
      (Z.of_nat (length pre) + Z.of_nat (length mid1)
       + Z.of_nat (length mid2)).
Proof.
  intros Hnn Hmid1.
  apply Forall_app in Hnn as [Hpre Hnn].
  apply Forall_app in Hnn as [Hm1 Hnn].
  apply Forall_app in Hnn as [Hm2 Hpost].
  change (pre ++ [prod mid1] ++ mid2 ++ post)
    with (pre ++ ([prod mid1] ++ mid2) ++ post).
  rewrite (app_assoc mid1 mid2 post).
  rewrite (group_app pre ([prod mid1] ++ mid2) post);
    [|rewrite !Forall_app; split_and!; try done;
      constructor; [by apply prod_nonneg|done]
     |done
     |apply normalize_nonneg; lia
     |rewrite normalize_nonneg by lia; rewrite length_app; cbn [length]; lia].
  rewrite (group_app pre (mid1 ++ mid2) post);
    [|rewrite !Forall_app; done
     |by intros [-> _]%app_eq_nil
     |apply normalize_nonneg; lia
     |rewrite normalize_nonneg by lia; rewrite length_app; lia].
  rewrite !prod_app, prod_cons, prod_nil, Z.mul_1_r.
  destruct (prod pre * prod post =? 0); [|done].
  do 3 f_equal; lia.
Qed.

(** X10: merging in two steps is merging at once: when [group(T, b, m)]
    returns [G], merging in [G] the merged axis with the axes that follow,
    up to what was axis [e] of [T], gives what [group(T, b, e)] gives, for
    every [e] with [m <= e <= ndim(T)] ([b] and [m] normalized). *)
Theorem group_group {A} (T G : ndarray A) (b m e : Z) :
  wf_ndarray T ->
  group T b m = Ok G ->
  normalize (ndim T) m <= e <= ndim T ->
  group G (normalize (ndim T) b)
    (e - (normalize (ndim T) m - normalize (ndim T) b) + 1)
  = group T (normalize (ndim T) b) e.
Proof.
  intros [Hnn _] HG He.
  apply group_ok_inv in HG as ((H0 & Hlt & Hle) & _ & ->); [|done].
  destruct T as [sh data]. cbn [shape flat] in *.
  remember (normalize (ndim (mk_ndarray sh data)) b) as nb eqn:Hnb.
  remember (normalize (ndim (mk_ndarray sh data)) m) as nm eqn:Hnm.
  unfold ndim in Hle, He. cbn [shape] in Hle, He.
  destruct (shape_split3 sh nb nm) as (Hsh & Hl1 & Hl2); [lia..|].
  remember (slice_to sh nb) as pre.
  remember (slice sh nb nm) as mid1.
  remember (slice_from sh nm) as rest.
  assert (Hlr : Z.of_nat (length rest) = Z.of_nat (length sh) - nm).
  { rewrite Hsh, !length_app. lia. }
  rewrite Hsh. rewrite <- (take_drop (Z.to_nat (e - nm)) rest).
  pose proof (length_take_le rest (Z.to_nat (e - nm))) as Hl3.
  remember (take (Z.to_nat (e - nm)) rest) as mid2.
  remember (drop (Z.to_nat (e - nm)) rest) as post.
  replace nb with (Z.of_nat (length pre)) by lia.
  replace (e - (nm - Z.of_nat (length pre)) + 1)
    with (Z.of_nat (length pre) + 1 + Z.of_nat (length mid2)) by lia.
  replace e with (Z.of_nat (length pre) + Z.of_nat (length mid1)
                  + Z.of_nat (length mid2)) by lia.
  apply group_group_app.
  - rewrite Heqmid2, Heqpost, take_drop, <- Hsh. done.
  - intros ->. cbn in Hl2. lia.
Qed.

Lemma group_group_witness :
  group arange_6_4 0 (3 - (2 - 0) + 1) = group arange_2_3_4 0 3.
Proof.
  apply (group_group arange_2_3_4 arange_6_4 0 2 3 wf_arange_2_3_4).
  - reflexivity.
  - vm_compute. split; congruence.
Defined.

(** Splitting again one of the axes that a split made. *)
Lemma ungroup_ungroup_app {A} (pre post s1 s2 s3 : list Z) (data : list A) :
  Forall (fun d => 0 <= d) pre -> Forall (fun d => 0 <= d) post ->
  Forall (fun d => 0 <= d) s1 -> Forall (fun d => 0 <= d) s2 ->
  Forall (fun d => 0 <= d) s3 ->
  ungroup (mk_ndarray (pre ++ (s1 ++ [prod s2] ++ s3) ++ post) data)
    (Z.of_nat (length pre) + Z.of_nat (length s1)) s2
  = match pre ++ (s1 ++ s2 ++ s3) ++ post with
    | [] => Raise TypeError
    | _ :: _ => Ok (mk_ndarray (pre ++ (s1 ++ s2 ++ s3) ++ post) data)
    end.
Proof.
  intros Hpre Hpost Hs1 Hs2 Hs3.
  assert (E1 : pre ++ (s1 ++ [prod s2] ++ s3) ++ post
               = (pre ++ s1) ++ [prod s2] ++ (s3 ++ post))
    by (by rewrite <- !app_assoc).
  assert (E2 : pre ++ (s1 ++ s2 ++ s3) ++ post
               = (pre ++ s1) ++ s2 ++ (s3 ++ post))
    by (by rewrite <- !app_assoc).
  rewrite E1, E2, ungroup_app.
  - by rewrite Z.eqb_refl.
  - rewrite !Forall_app. split_and!; try done.
    constructor; [by apply prod_nonneg|done].
  - done.
  - rewrite normalize_nonneg by lia. rewrite length_app. lia.
Qed.

(** X11: splitting in two steps is splitting at once: when
    [ungroup(T, t, s1 + (q,) + s3)] returns [U] and [s2] is a sequence
    without negative entries whose product is [q], splitting in [U] the
    axis of size [q] into [s2] gives what [ungroup(T, t, s1 + s2 + s3)]
    gives. *)
Theorem ungroup_ungroup {A} (T U : ndarray A) (t : Z) (s1 s2 s3 : list Z) :
  wf_ndarray T ->
  Forall (fun d => 0 <= d) s2 ->
  ungroup T t (s1 ++ [prod s2] ++ s3) = Ok U ->
  ungroup U (normalize (ndim T) t + Z.of_nat (length s1)) s2
  = ungroup T t (s1 ++ s2 ++ s3).
Proof.
  intros [Hnn _] Hs2 HU.
  apply ungroup_ok_inv in HU as (Hin & Hprod & Hsplit & -> & _); [|done].
  apply Forall_app in Hsplit as [Hs1 Hsplit].
  apply Forall_app in Hsplit as [_ Hs3].
  rewrite (ungroup_in_range T t (s1 ++ s2 ++ s3));
    [|done|rewrite !Forall_app; done|done].
  rewrite <- Hprod, !prod_app, prod_cons, prod_nil, Z.mul_1_r, Z.eqb_refl.
  destruct Hin as [H0 Hlt]. unfold ndim in *.
  remember (normalize (Z.of_nat (length (shape T))) t) as nt eqn:Hnt.
  destruct (shape_split_axis (shape T) nt) as [_ Hl1]; [lia|].
  rewrite <- Hl1 at 3.
  apply ungroup_ungroup_app; try done.
  - unfold slice_to. by apply Forall_take.
  - unfold slice_from. by apply Forall_drop.
Qed.

Lemma ungroup_ungroup_witness :
  ungroup arange_2_12 (0 + 1) [3; 4] = ungroup arange_24 0 [2; 3; 4].
Proof.
  apply (ungroup_ungroup arange_24 arange_2_12 0 [2] [3; 4] [] wf_arange_24).
  - repeat constructor; lia.
  - reflexivity.
Defined.

(** ** Element order under [ungroup] *)

(** X12: the split axis is in row-major order: the element of
    [ungroup(T, t, split)] at the multi-index [isplit] of the new axes is
    the element of [T] at position [k] of axis [t], with [k] the C-order
    position of [isplit] within [split] (last entry fastest). *)
Theorem ungroup_item {A} (pre post split : list Z) (x : Z) (data : list A)
    (t : Z) (U : ndarray A) (ipre isplit ipost : list Z) :
  Forall (fun d => 0 <= d) (pre ++ [x] ++ post) ->
  Forall (fun d => 0 <= d) split ->
  normalize (ndim (mk_ndarray (pre ++ [x] ++ post) data)) t
    = Z.of_nat (length pre) ->
  ungroup (mk_ndarray (pre ++ [x] ++ post) data) t split = Ok U ->
  length ipre = length pre -> length isplit = length split ->
  item U (ipre ++ isplit ++ ipost)
  = item (mk_ndarray (pre ++ [x] ++ post) data)
      (ipre ++ [ravel split isplit 0] ++ ipost).
Proof.
  intros Hnn Hsplit Ht HU Hl1 Hl2.
  rewrite ungroup_app in HU by done.
  destruct (Z.eqb_spec x (prod split)) as [->|]; [|done].
  destruct (pre ++ split ++ post) as [|d dims] eqn:E; [done|].
  injection HU as <-. rewrite <- E. clear d dims E.
  unfold item. cbn [shape flat]. do 2 f_equal.
  rewrite !ravel_app by (cbn [length]; lia).
  cbn [ravel]. f_equal.
  rewrite (ravel_acc split isplit (ravel pre ipre 0)) by lia. done.
Qed.

Lemma ungroup_item_witness :
  item arange_2_3_4 ([1] ++ [2; 3] ++ [])
  = item arange_2_12 ([1] ++ [ravel [3; 4] [2; 3] 0] ++ []).
Proof.
  apply (ungroup_item [2] [] [3; 4] 12 (seqZ 0 24) (-1) arange_2_3_4
           [1] [2; 3] []).
  - repeat constructor; lia.
  - repeat constructor; lia.
  - reflexivity.
  - reflexivity.
  - reflexivity.
  - reflexivity.
Defined.

(** ** Concrete instances of the round trip, the element order and the
    invariant *)

Lemma ungroup_after_group_witness :
  (g <- group arange_2_3_4 (-2) 3 ;;; ungroup g 1 (slice [2; 3; 4] 1 3))
  = Ok arange_2_3_4.
Proof.
  apply (ungroup_after_group arange_2_3_4 (-2) 3).
  - repeat constructor; lia.
  - concrete_range.
  - vm_compute. discriminate.
Defined.

Lemma group_item_witness :
  item arange_2_12 ([1] ++ [ravel [3; 4] [2; 3] 0] ++ [])
  = item arange_2_3_4 ([1] ++ [2; 3] ++ []).
Proof.
  apply (group_item [2] [3; 4] [] (seqZ 0 24) 1 3 arange_2_12 [1] [2; 3] []).
  - repeat constructor; lia.
  - discriminate.
  - reflexivity.
  - reflexivity.
  - reflexivity.
  - reflexivity.
  - reflexivity.
Defined.

Lemma group_wf_witness : wf_ndarray arange_2_12.
Proof.
  apply (group_wf arange_2_3_4 arange_2_12 1 3 wf_arange_2_3_4). reflexivity.
Defined.

Lemma ungroup_wf_witness : wf_ndarray arange_2_3_4.
Proof.
  apply (ungroup_wf arange_2_12 arange_2_3_4 1 [3; 4] wf_arange_2_12).
  reflexivity.
Defined.

(** ** The elements play no part *)

(** X17: neither function looks at the elements: on an array [T'] with the
    shape of [T], of whatever element type, [group] fails as it does on
    [T], and where [group] or [ungroup] returns an array on [T] it returns
    on [T'] the array of the same shape holding the elements of [T']. *)
Theorem shape_decides {A B} (T : ndarray A) (T' : ndarray B) :
  shape T' = shape T ->
  (forall b e x, group T b e = Raise x -> group T' b e = Raise x) /\
  (forall b e G, group T b e = Ok G ->
     group T' b e = Ok (mk_ndarray (shape G) (flat T'))) /\
  (forall t split U, ungroup T t split = Ok U ->
     ungroup T' t split = Ok (mk_ndarray (shape U) (flat T'))).
Proof.
  intros Hsh. split_and!.
  - intros b e x. unfold group, reshape, ndim, size. rewrite Hsh.
    destruct (negb _); [by intros [= <-]|].
    destruct (fix_unknown_dimension _ _); cbn [bind]; [done|by intros [= <-]].
  - intros b e G. unfold group, reshape, ndim, size. rewrite Hsh.
    destruct (negb _); [done|].
    destruct (fix_unknown_dimension _ _); cbn [bind]; [|done].
    by intros [= <-].
  - intros t split U.
    unfold ungroup, reshape_call, reshape, ndim, axis_size, size.
    rewrite Hsh.
    destruct (negb (_ && _)); [done|]. destruct (negb (_ =? _)); [done|].
    destruct (_ ++ _ ++ _); [done|].
    destruct (fix_unknown_dimension _ _); cbn [bind]; [|done].
    by intros [= <-].
Qed.

Lemma shape_decides_witness :
  group eye_3 0 2 = Ok (mk_ndarray [9] (flat eye_3)).
Proof.
  destruct (shape_decides (mk_ndarray [3; 3] (seqZ 0 9)) eye_3 eq_refl)
    as (_ & H & _).
  apply (H 0 2 (mk_ndarray [9] (seqZ 0 9))). reflexivity.
Defined.
